(** * yes123-crawler: [upload_duplicate_104_to_mysql.py]

    A shallow embedding of the one-shot crawler that fetches a single 104
    job posting ([fetch_104_data]) and writes it to the MySQL table
    [jobs_104] with [INSERT ... ON DUPLICATE KEY UPDATE] (the [__main__]
    block), followed by the properties of the specification that were
    checked against it.

    Conventions.
    - Python values that come out of [response.json()] are the type [json];
      a Python [dict] is a [gmap string json].
    - Python [str] is Rocq's [string].  A string literal of this file is the
      UTF-8 encoding of the Python literal; [split] only ever looks for the
      ASCII characters [/] and [?], which never occur inside the encoding of
      another code point, so splitting bytes and splitting code points agree.
    - Effects (the log written through loguru, the MySQL database) are
      threaded through a state-and-exception monad [M].  What the outside
      world answers (the HTTP server, database faults) is the record [env]. *)

From stdpp Require Import gmap strings list fin_maps.
From Stdlib Require Import ZArith Lia.
From Stdlib Require Import Ascii.

Set Warnings "-register-all".

(** ** Python values *)

Module Py.

(** What [json.loads] can produce.  Of a float this program observes only
    whether it is zero (its truth value), so that is all [JFloat] records. *)
Inductive json : Type :=
| JNull
| JBool (b : bool)
| JInt (n : Z)
| JFloat (is_zero : bool)
| JStr (s : string)
| JList (l : list json)
| JDict (d : gmap string json).

(** Exception classes that can travel through this program. *)
Inductive exc : Type :=
| IndexError | AttributeError | KeyError | TypeError      (* builtins *)
| KeyboardInterrupt                                       (* BaseException only *)
| HTTPError | JSONDecodeError                             (* requests.exceptions *)
| ConnectionError | Timeout | TooManyRedirects            (* requests.exceptions *)
| OperationalError | IntegrityError | DataError           (* sqlalchemy.exc *)
| ProgrammingError | CompileError.                        (* sqlalchemy.exc *)

#[global] Instance exc_eq_dec : EqDecision exc.
Proof. solve_decision. Defined.

(** The result of evaluating an expression: a value or a raised exception. *)
Inductive res (A : Type) : Type :=
| Ret (a : A)
| Raise (e : exc).
Arguments Ret {A} a.
Arguments Raise {A} e.

Definition res_bind {A B} (r : res A) (k : A -> res B) : res B :=
  match r with
  | Ret a => k a
  | Raise e => Raise e
  end.

(** [bool(v)] *)
Definition truthy (v : json) : bool :=
  match v with
  | JNull => false
  | JBool b => b
  | JInt n => negb (n =? 0)%Z
  | JFloat is_zero => negb is_zero
  | JStr s => negb (String.eqb s "")
  | JList l => match l with [] => false | _ => true end
  | JDict d => negb (bool_decide (d = ∅))
  end.

(** [v.get(key, dflt)]: only a dict has the method. *)
Definition py_get (v : json) (key : string) (dflt : json) : res json :=
  match v with
  | JDict d => Ret (default dflt (d !! key))
  | _ => Raise AttributeError
  end.

(** [v == s] for a string literal [s]. *)
Definition py_eq_str (v : json) (s : string) : bool :=
  match v with
  | JStr t => String.eqb t s
  | _ => false
  end.

(** [s.split(sep)] for a one-character separator: one more piece than there
    are separators, empty pieces kept. *)
Fixpoint split (sep : ascii) (s : string) : list string :=
  match s with
  | EmptyString => [EmptyString]
  | String c rest =>
      if Ascii.eqb c sep then EmptyString :: split sep rest
      else match split sep rest with
           | [] => [String c EmptyString]
           | piece :: pieces => String c piece :: pieces
           end
  end.

(** [l[-1]] *)
Definition index_last {A} (l : list A) : res A :=
  match last l with
  | Some x => Ret x
  | None => Raise IndexError
  end.

(** [l[0]] *)
Definition index_first {A} (l : list A) : res A :=
  match l with
  | x :: _ => Ret x
  | [] => Raise IndexError
  end.

(** An [except] clause: a tuple of classes, or [except Exception]. *)
Inductive handler : Type :=
| Classes (cs : list exc)
| AnyException.

(** The classes of this program have no subclasses among them, so a tuple
    handler catches exactly its members; [Exception] is a base of all of
    them but [KeyboardInterrupt]. *)
Definition catches (h : handler) (e : exc) : bool :=
  match h with
  | Classes cs => bool_decide (e ∈ cs)
  | AnyException => negb (bool_decide (e = KeyboardInterrupt))
  end.

End Py.
Export Py.

(** ** Effects: the log, the database, and what the world answers *)

Module Eff.

Inductive level : Type := INFO | WARNING | ERROR.

(** The values interpolated into an f-string, kept unrendered. *)
Inductive fmt_arg : Type :=
| FStr (s : string)
| FVal (v : json)
| FExc (e : exc).

(** One loguru record: the level, the f-string and its arguments. *)
Record log_entry : Type := Log {
  log_level : level;
  log_template : string;
  log_args : list fmt_arg
}.

(** A row maps column names to cell values ([JNull] is SQL NULL); the
    database maps table names to rows, in insertion order. *)
Record world : Type := World {
  w_log : list log_entry;
  w_db : gmap string (list (gmap string json))
}.

Definition set_db (db : gmap string (list (gmap string json))) (w : world) : world :=
  {| w_log := w_log w; w_db := db |}.

(** What [requests.get] hands back when it does not raise: the status line
    and the body as [json.loads] sees it ([None]: not JSON). *)
Record response : Type := Response {
  status_code : Z;
  body_json : option json
}.

(** Points at which the database layer can fail for reasons outside the
    program (server gone, lock timeout, value rejected by the server ...). *)
Inductive db_op : Type := OpCreateAll | OpBegin | OpExecute | OpCommit.

(** The outside world of one run. *)
Record env : Type := Env {
  net : string -> gmap string string -> res response;
  db_fault : db_op -> option exc
}.

Definition M (A : Type) : Type := world -> res A * world.

Definition ret {A} (a : A) : M A := fun w => (Ret a, w).

Definition raise {A} (e : exc) : M A := fun w => (Raise e, w).

Definition bind {A B} (m : M A) (k : A -> M B) : M B :=
  fun w =>
    match m w with
    | (Ret a, w') => k a w'
    | (Raise e, w') => (Raise e, w')
    end.

Definition lift {A} (r : res A) : M A := fun w => (r, w).

(** [try: x = body / except h as e: return on_exc(e)] followed by the rest
    of the function, which runs outside the [try]. *)
Definition try_except_return {A B} (body : M A) (h : handler)
    (on_exc : exc -> M B) (rest : A -> M B) : M B :=
  fun w =>
    match body w with
    | (Ret a, w') => rest a w'
    | (Raise e, w') => if catches h e then on_exc e w' else (Raise e, w')
    end.

(** [try: body / except h as e: on_exc(e)] as a statement. *)
Definition try_except {A} (body : M A) (h : handler) (on_exc : exc -> M A) : M A :=
  try_except_return body h on_exc ret.

Definition logger (lvl : level) (template : string) (args : list fmt_arg) : M unit :=
  fun w => (Ret tt, {| w_log := w_log w ++ [Log lvl template args]; w_db := w_db w |}).

Definition logger_info := logger INFO.
Definition logger_warning := logger WARNING.
Definition logger_error := logger ERROR.

End Eff.
Export Eff.

Declare Scope py_scope.
Delimit Scope py_scope with py.
Notation "x <- m ;; k" := (bind m (fun x => k))
  (at level 100, m at next level, k at level 200, right associativity) : py_scope.
Notation "m ;;; k" := (bind m (fun _ => k))
  (at level 100, k at level 200, right associativity) : py_scope.
Notation "x <~ r ;; k" := (res_bind r (fun x => k))
  (at level 100, r at next level, k at level 200, right associativity) : py_scope.

(** ** The fetcher: [fetch_104_data] (lines 17-74) *)

Module Fetcher.
Section WithEnv.
Variable E : env.
Local Open Scope py_scope.

Definition headers : gmap string string :=
  {[ "User-Agent" := "Mozilla/5.0 (Windows NT 10.0; Win64; x64) AppleWebKit/537.36 (KHTML, like Gecko) Chrome/125.0.0.0 Safari/537.36";
     "referer" := "https://www.104.com.tw/" ]}.

(** [requests.get(url, headers=headers)] *)
Definition requests_get (url : string) (hs : gmap string string) : M response :=
  lift (net E url hs).

(** [response.raise_for_status()]: requests raises [HTTPError] for the
    client (4xx) and server (5xx) error codes and for nothing else. *)
Definition raise_for_status (r : response) : M unit :=
  if ((400 <=? status_code r) && (status_code r <? 600))%Z
  then raise HTTPError
  else ret tt.

(** [response.json()] *)
Definition response_json (r : response) : M json :=
  match body_json r with
  | Some v => ret v
  | None => raise JSONDecodeError
  end.

(** Line 33: [url.split('/')[-1].split('?')[0]] *)
Definition derive_job_id (url : string) : res string :=
  seg <~ index_last (split "/"%char url) ;;
  index_first (split "?"%char seg).

(** [job_data.get(section, {}).get(key)] *)
Definition get_path (job_data : json) (section key : string) : M json :=
  lift (sec <~ py_get job_data section (JDict ∅) ;; py_get sec key JNull).

(** [job_data.get(section, {}).get(key, dflt)] *)
Definition get_path_default (job_data : json) (section key : string) (dflt : json) : M json :=
  lift (sec <~ py_get job_data section (JDict ∅) ;; py_get sec key dflt).

Definition placeholder : string := "未提供".

(** Lines 53-74: the dict display is evaluated entry by entry, top down. *)
Definition extracted_info (job_id : string) (job_data : json) : M json :=
  update_date <- get_path job_data "header" "appearDate" ;;
  title <- get_path job_data "header" "jobName" ;;
  description <- get_path job_data "jobDetail" "jobDescription" ;;
  salary <- get_path job_data "jobDetail" "salary" ;;
  work_type <- get_path job_data "jobDetail" "workType" ;;
  work_time <- get_path job_data "jobDetail" "workPeriod" ;;
  location <- get_path job_data "jobDetail" "addressRegion" ;;
  degree <- get_path job_data "condition" "edu" ;;
  department <- get_path job_data "jobDetail" "department" ;;
  working_experience <- get_path job_data "condition" "workExp" ;;
  qualification_required <- get_path job_data "condition" "other" ;;
  qualification_bonus <- get_path job_data "welfare" "welfare" ;;
  company_id <- get_path job_data "header" "custNo" ;;
  company_name <- get_path job_data "header" "custName" ;;
  company_address <- get_path job_data "company" "address" ;;
  contact_person <- get_path job_data "contact" "hrName" ;;
  contact_phone <- get_path_default job_data "contact" "email" (JStr placeholder) ;;
  ret (JDict (list_to_map [
    ("job_id", JStr job_id);
    ("update_date", update_date);
    ("title", title);
    ("description", description);
    ("salary", salary);
    ("work_type", work_type);
    ("work_time", work_time);
    ("location", location);
    ("degree", degree);
    ("department", department);
    ("working_experience", working_experience);
    ("qualification_required", qualification_required);
    ("qualification_bonus", qualification_bonus);
    ("company_id", company_id);
    ("company_name", company_name);
    ("company_address", company_address);
    ("contact_person", contact_person);
    ("contact_phone", contact_phone)
  ])).

(** Lines 48-51: [not job_data or job_data.get('custSwitch', {}) == "off"];
    [or] evaluates its right operand only when the left one is false. *)
Definition absent_or_closed (job_data : json) : M bool :=
  if negb (truthy job_data) then ret true
  else
    switch <- lift (py_get job_data "custSwitch" (JDict ∅)) ;;
    ret (py_eq_str switch "off").

(** Lines 48-74: what the function does with the decoded response. *)
Definition process_payload (job_id : string) (data : json) : M json :=
  job_data <- lift (py_get data "data" (JDict ∅)) ;;
  closed <- absent_or_closed job_data ;;
  if closed : bool then
    logger_warning "職缺(ID:{job_id})內容不存在或已關閉" [FStr job_id] ;;;
    ret (JDict ∅)
  else
    extracted_info job_id job_data.

Definition api_url (job_id : string) : string :=
  "https://www.104.com.tw/job/ajax/content/" +:+ job_id.

(** Lines 38-74, the function after the identifier is known. *)
Definition fetch_with_id (job_id : string) : M json :=
  let url_api := api_url job_id in
  try_except_return
    (response <- requests_get url_api headers ;;
     raise_for_status response ;;;
     response_json response)
    (Classes [HTTPError; JSONDecodeError])
    (fun err =>
       logger_error "請求 API 時發生錯誤: {err}" [FExc err] ;;;
       ret (JDict ∅))
    (process_payload job_id).

Definition fetch_104_data (url : string) : M json :=
  try_except_return
    (lift (derive_job_id url))
    (Classes [IndexError])
    (fun _ =>
       logger_error "無法從 URL 中解析 job_id: {url}" [FStr url] ;;;
       ret (JDict ∅))
    fetch_with_id.

End WithEnv.
End Fetcher.
Export Fetcher.

(** ** The persister: table definition and upsert (lines 76-150) *)

Module Persister.

Inductive sql_type : Type := SqlString (n : nat) | SqlText.

Record column : Type := Column {
  col_name : string;
  col_type : sql_type;
  primary_key : bool
}.

Record table : Type := Table {
  table_name : string;
  columns : list column
}.

(** Lines 85-106 *)
Definition jobs_104_table : table :=
  Table "jobs_104" [
    Column "job_id" (SqlString 50) true;
    Column "update_date" (SqlString 50) false;
    Column "title" (SqlString 255) false;
    Column "description" SqlText false;
    Column "salary" (SqlString 255) false;
    Column "work_type" (SqlString 50) false;
    Column "work_time" (SqlString 100) false;
    Column "location" (SqlString 100) false;
    Column "degree" (SqlString 100) false;
    Column "department" (SqlString 255) false;
    Column "working_experience" (SqlString 100) false;
    Column "qualification_required" SqlText false;
    Column "qualification_bonus" SqlText false;
    Column "company_id" (SqlString 50) false;
    Column "company_name" (SqlString 255) false;
    Column "company_address" (SqlString 255) false;
    Column "contact_person" (SqlString 100) false;
    Column "contact_phone" (SqlString 255) false
  ].

(** [MetaData()] with the tables registered on it. *)
Definition metadata : list table := [jobs_104_table].

Definition column_names (t : table) : list string := map col_name (columns t).

(** The right-hand side of an [ON DUPLICATE KEY UPDATE] assignment; this
    program only builds [insert_stmt.inserted[name]], MySQL's [VALUES(name)]. *)
Inductive sql_expr : Type := Inserted (name : string).

(** An [INSERT ... VALUES ... ON DUPLICATE KEY UPDATE ...] statement. *)
Record insert_stmt : Type := InsertStmt {
  ins_table : table;
  ins_values : gmap string json;
  ins_on_duplicate : list (string * sql_expr)
}.

(** [insert(t)] *)
Definition insert (t : table) : insert_stmt := InsertStmt t ∅ [].

(** [stmt.values] applied to keyword arguments *)
Definition values (s : insert_stmt) (kw : gmap string json) : insert_stmt :=
  InsertStmt (ins_table s) kw (ins_on_duplicate s).

(** [stmt.on_duplicate_key_update] applied to keyword arguments *)
Definition on_duplicate_key_update (s : insert_stmt) (kw : list (string * sql_expr)) : insert_stmt :=
  InsertStmt (ins_table s) (ins_values s) kw.

(** Lines 134-140: [{col.name: insert_stmt.inserted[col.name]
    for col in jobs_104_table.columns if not col.primary_key}] *)
Definition update_columns (t : table) : list (string * sql_expr) :=
  map (fun col => (col_name col, Inserted (col_name col)))
      (List.filter (fun col => negb (primary_key col)) (columns t)).

(** Lines 128-141 *)
Definition update_stmt (job_details : gmap string json) : insert_stmt :=
  let insert_stmt := values (insert jobs_104_table) job_details in
  on_duplicate_key_update insert_stmt (update_columns jobs_104_table).

(** *** What the server does with the statement *)

(** The row the [VALUES] clause describes: a column not supplied is NULL. *)
Definition inserted_row (s : insert_stmt) : gmap string json :=
  list_to_map
    (map (fun col => (col_name col, default JNull (ins_values s !! col_name col)))
         (columns (ins_table s))).

(** The primary key of a row, when every key cell holds a string.  The only
    key column here is [job_id], which line 54 always fills with a [str]. *)
Definition row_key (t : table) (r : gmap string json) : option (list string) :=
  mapM (fun col => match r !! col_name col with
                   | Some (JStr s) => Some s
                   | _ => None
                   end)
       (List.filter primary_key (columns t)).

Definition has_key (t : table) (k : list string) (r : gmap string json) : bool :=
  bool_decide (row_key t r = Some k).

Definition eval_expr (new : gmap string json) (e : sql_expr) : json :=
  match e with
  | Inserted name => default JNull (new !! name)
  end.

(** The [ON DUPLICATE KEY UPDATE] assignments applied to the existing row. *)
Definition on_duplicate (s : insert_stmt) (new old : gmap string json) : gmap string json :=
  foldl (fun acc '(name, e) => <[name := eval_expr new e]> acc) old (ins_on_duplicate s).

(** Executing the statement against the rows of its table.  Keyword
    arguments that name no column are refused when the statement is
    compiled; a key that is NULL violates the primary key. *)
Definition exec_upsert (s : insert_stmt) (rows : list (gmap string json))
    : res (list (gmap string json)) :=
  if bool_decide (dom (ins_values s) ⊆ list_to_set (column_names (ins_table s)))
  then
    let new := inserted_row s in
    match row_key (ins_table s) new with
    | None => Raise IntegrityError
    | Some k =>
        if List.existsb (has_key (ins_table s) k) rows
        then Ret (map (fun r => if has_key (ins_table s) k r
                                then on_duplicate s new r else r) rows)
        else Ret (rows ++ [new])
    end
  else Raise CompileError.

Section WithEnv.
Variable E : env.
Local Open Scope py_scope.

(** An interaction with the server that the world can make fail. *)
Definition db_step (op : db_op) : M unit :=
  match db_fault E op with
  | Some e => raise e
  | None => ret tt
  end.

(** [metadata.create_all(engine)]: create the tables that do not exist. *)
Definition create_all (md : list table) : M unit :=
  db_step OpCreateAll ;;;
  fun w =>
    (Ret tt,
     set_db (foldl (fun db t => match db !! table_name t with
                                | Some _ => db
                                | None => <[table_name t := []]> db
                                end) (w_db w) md) w).

(** [conn.execute(stmt)] *)
Definition conn_execute (s : insert_stmt) : M unit :=
  db_step OpExecute ;;;
  fun w =>
    match w_db w !! table_name (ins_table s) with
    | None => (Raise ProgrammingError, w)
    | Some rows =>
        match exec_upsert s rows with
        | Ret rows' => (Ret tt, set_db (<[table_name (ins_table s) := rows']> (w_db w)) w)
        | Raise e => (Raise e, w)
        end
    end.

(** [with engine.begin() as conn: body]: the block runs in one transaction,
    committed when the block ends normally and rolled back when the block,
    or the commit, raises. *)
Definition engine_begin {A} (body : M A) : M A :=
  db_step OpBegin ;;;
  fun w =>
    let saved := w_db w in
    match body w with
    | (Ret a, w') =>
        match db_step OpCommit w' with
        | (Ret _, w'') => (Ret a, w'')
        | (Raise e, w'') => (Raise e, set_db saved w'')
        end
    | (Raise e, w') => (Raise e, set_db saved w')
    end.

(** [**job_details] needs a mapping. *)
Definition kwargs (v : json) : res (gmap string json) :=
  match v with
  | JDict d => Ret d
  | _ => Raise TypeError
  end.

(** [d[key]] *)
Definition py_getitem (d : gmap string json) (key : string) : res json :=
  match d !! key with
  | Some v => Ret v
  | None => Raise KeyError
  end.

(** Lines 124-150, the [else] branch of [__main__]. *)
Definition write_to_db (job_details : json) : M unit :=
  logger_info "資料抓取成功！準備寫入資料庫..." [] ;;;
  kw <- lift (kwargs job_details) ;;
  let update_stmt := update_stmt kw in
  try_except
    (engine_begin (conn_execute update_stmt) ;;;
     job_id <- lift (py_getitem kw "job_id") ;;
     logger_info "資料 (job_id: {job_details['job_id']}) 已成功插入或更新至資料庫。"
                 [FVal job_id])
    AnyException
    (fun e => logger_error "寫入資料庫時發生錯誤: {e}" [FExc e]).

(** Lines 76-150 *)
Definition main : M unit :=
  logger_info "檢查並建立資料表 'jobs_104'..." [] ;;;
  create_all metadata ;;;
  logger_info "資料表準備完成。" [] ;;;
  let job_url := "https://www.104.com.tw/job/8863t" in
  logger_info "正在從 {job_url} 抓取資料..." [FStr job_url] ;;;
  job_details <- fetch_104_data E job_url ;;
  if negb (truthy job_details) then
    logger_error "抓取資料失敗，程式終止。" []
  else
    write_to_db job_details.

End WithEnv.
End Persister.
Export Persister.

(** ** Vocabulary of the properties *)

(** [c in s] *)
Fixpoint contains (c : ascii) (s : string) : bool :=
  match s with
  | EmptyString => false
  | String a rest => Ascii.eqb a c || contains c rest
  end.

(** The request for [job_id] is answered with a status that
    [raise_for_status] lets through and a body that decodes to [data]. *)
Definition answers (E : env) (job_id : string) (data : json) : Prop :=
  ∃ status,
    net E (api_url job_id) headers = Ret (Response status (Some data))
    ∧ (status < 400 ∨ 600 ≤ status)%Z.

(** The nested objects that lines 55-71 read from. *)
Definition sections : list string :=
  ["header"; "jobDetail"; "condition"; "welfare"; "company"; "contact"].

(** Lines 55-71 as a table: field, section, key, and the default handed to
    the inner [.get]. *)
Definition field_sources : list (string * (string * string * json)) := [
  ("update_date", ("header", "appearDate", JNull));
  ("title", ("header", "jobName", JNull));
  ("description", ("jobDetail", "jobDescription", JNull));
  ("salary", ("jobDetail", "salary", JNull));
  ("work_type", ("jobDetail", "workType", JNull));
  ("work_time", ("jobDetail", "workPeriod", JNull));
  ("location", ("jobDetail", "addressRegion", JNull));
  ("degree", ("condition", "edu", JNull));
  ("department", ("jobDetail", "department", JNull));
  ("working_experience", ("condition", "workExp", JNull));
  ("qualification_required", ("condition", "other", JNull));
  ("qualification_bonus", ("welfare", "welfare", JNull));
  ("company_id", ("header", "custNo", JNull));
  ("company_name", ("header", "custName", JNull));
  ("company_address", ("company", "address", JNull));
  ("contact_person", ("contact", "hrName", JNull));
  ("contact_phone", ("contact", "email", JStr placeholder))
].

(** The value at [section.key] is absent from the data section [jd]: the
    section is missing, or it is an object without the key. *)
Definition source_absent (jd : gmap string json) (section key : string) : Prop :=
  jd !! section = None
  ∨ ∃ sec, jd !! section = Some (JDict sec) ∧ sec !! key = None.

(** A section is usable by [.get(section, {}).get(key)]: missing, or an
    object. *)
Definition section_ok (jd : gmap string json) (section : string) : Prop :=
  jd !! section = None ∨ ∃ sec, jd !! section = Some (JDict sec).

(** The primary-key constraint on the rows of a table: no key twice. *)
Definition pk_unique (t : table) (rows : list (gmap string json)) : Prop :=
  ∀ k, length (List.filter (has_key t k) rows) ≤ 1.

(** The [with] block of lines 146-147 raises [e] in the world [w]. *)
Definition upsert_raises (E : env) (job_details : gmap string json)
    (w : world) (e : exc) : Prop :=
  (engine_begin E (conn_execute E (update_stmt job_details)) w).1 = Raise e.

(** *** Sample inputs *)

(** A server that answers every request with status 200 and the JSON body
    [data], in front of a database that never fails. *)
Definition serving (data : json) : env :=
  Env (fun _ _ => Ret (Response 200 (Some data))) (fun _ => None).

Definition sample_url : string := "https://www.104.com.tw/job/8863t".

Definition fresh_world : world := World [] ∅.

(** A posting without [welfare], [company] and [condition] sections, whose
    [contact] object has no [email]. *)
Definition open_data : gmap string json :=
  <["header" := JDict (<["jobName" := JStr "Backend Engineer"]>
                       {[ "custName" := JStr "Acme" ]})]>
  (<["jobDetail" := JDict {[ "salary" := JStr "50000" ]}]>
   {[ "contact" := JDict {[ "hrName" := JStr "Ms. Chen" ]} ]}).

Definition open_payload : gmap string json := {[ "data" := JDict open_data ]}.

(** The same posting after it was closed. *)
Definition closed_data : gmap string json := <["custSwitch" := JStr "off"]> open_data.

Definition closed_payload : gmap string json := {[ "data" := JDict closed_data ]}.

(** The posting of [open_data] without its [contact] section. *)
Definition no_contact_data : gmap string json := delete "contact" open_data.

Definition no_contact_payload : gmap string json := {[ "data" := JDict no_contact_data ]}.

(** A posting whose [welfare] section is present but [null]. *)
Definition null_welfare_data : gmap string json := <["welfare" := JNull]> open_data.

Definition null_welfare_payload : gmap string json := {[ "data" := JDict null_welfare_data ]}.

(** A posting whose [contact] object maps [email] to [null]. *)
Definition null_email_data : gmap string json :=
  <["contact" := JDict (<["email" := JNull]> {[ "hrName" := JStr "Ms. Chen" ]})]> open_data.

Definition null_email_payload : gmap string json := {[ "data" := JDict null_email_data ]}.

(** The dict a call returned, or the empty dict when it raised. *)
Definition returned_dict (run : res json * world) : gmap string json :=
  match run with
  | (Ret (JDict d), _) => d
  | _ => ∅
  end.

(** The record fetched for [open_payload], and a later version of it with
    another title and no salary. *)
Definition sample_record : gmap string json :=
  returned_dict (fetch_104_data (serving (JDict open_payload)) sample_url fresh_world).

Definition sample_record_2 : gmap string json :=
  <["title" := JStr "Senior Backend Engineer"]> (<["salary" := JNull]> sample_record).

(** A world in which [create_all] has run. *)
Definition ready_world : world := World [] {[ "jobs_104" := [] ]}.

(** A database whose server goes away when the transaction commits. *)
Definition commit_fails : env :=
  Env (fun _ _ => Ret (Response 200 (Some (JDict open_payload))))
      (fun op => match op with OpCommit => Some OperationalError | _ => None end).

(** *** Vocabulary and sample inputs of the further properties *)

(** The world after the records [entries] were appended to the log. *)
Definition logged (entries : list log_entry) (w : world) : world :=
  {| w_log := w_log w ++ entries; w_db := w_db w |}.

(** A diagnostic: a log record above the INFO level. *)
Definition is_diagnostic (entry : log_entry) : Prop :=
  log_level entry = WARNING ∨ log_level entry = ERROR.

(** What a run of the fetcher amounts to: the result [r] and the records
    [entries] it logs.  Absent comes with exactly one diagnostic; a record
    or an exception comes with none. *)
Definition fetch_outcome (r : res json) (entries : list log_entry) : Prop :=
  (r = Ret (JDict ∅) ∧ ∃ entry, entries = [entry] ∧ is_diagnostic entry)
  ∨ (r ≠ Ret (JDict ∅) ∧ entries = []).

(** [isinstance(v, dict)] *)
Definition is_object (v : json) : bool :=
  match v with
  | JDict _ => true
  | _ => false
  end.

(** A server that answers every request with the given status and body, in
    front of a database that never fails. *)
Definition answering (status : Z) (body : option json) : env :=
  Env (fun _ _ => Ret (Response status body)) (fun _ => None).

(** The log records of lines 124, 148 and 150. *)
Definition log_writing : log_entry :=
  Log INFO "資料抓取成功！準備寫入資料庫..." [].

Definition log_written (job_id : json) : log_entry :=
  Log INFO "資料 (job_id: {job_details['job_id']}) 已成功插入或更新至資料庫。" [FVal job_id].

Definition log_write_failed (e : exc) : log_entry :=
  Log ERROR "寫入資料庫時發生錯誤: {e}" [FExc e].

(** The log records of lines 109, 111, 118 and 122. *)
Definition log_startup : list log_entry :=
  [Log INFO "檢查並建立資料表 'jobs_104'..." [];
   Log INFO "資料表準備完成。" [];
   Log INFO "正在從 {job_url} 抓取資料..." [FStr "https://www.104.com.tw/job/8863t"]].

Definition log_fetch_failed : log_entry :=
  Log ERROR "抓取資料失敗，程式終止。" [].

(** The database once the table [jobs_104] exists. *)
Definition created (db : gmap string (list (gmap string json)))
    : gmap string (list (gmap string json)) :=
  match db !! "jobs_104" with
  | Some _ => db
  | None => <["jobs_104" := []]> db
  end.

(** The rows of a table that are not under the key [id]. *)
Definition other_rows (id : string) (rows : list (gmap string json))
    : list (gmap string json) :=
  List.filter (fun row => negb (has_key jobs_104_table [id] row)) rows.

(** The record of another posting. *)
Definition other_record : gmap string json :=
  <["job_id" := JStr "7abc1"]> (<["title" := JStr "Data Analyst"]> sample_record).

(** A world whose table holds that posting and an earlier version of the
    sample posting. *)
Definition stocked_world : world :=
  World [] {[ "jobs_104" := [other_record; sample_record] ]}.

(** A database that is down when the program starts. *)
Definition create_all_fails : env :=
  Env (fun _ _ => Ret (Response 200 (Some (JDict open_payload))))
      (fun op => match op with OpCreateAll => Some OperationalError | _ => None end).

(** No route to the server. *)
Definition unreachable : env :=
  Env (fun _ _ => Raise ConnectionError) (fun _ => None).

(** * Properties *)

(** ** Splitting strings *)

Lemma append_nil_l (b : string) : "" +:+ b = b.
Proof. reflexivity. Qed.

Lemma append_cons (x : ascii) (a b : string) : String x a +:+ b = String x (a +:+ b).
Proof. reflexivity. Qed.

Lemma append_assoc (a b c : string) : (a +:+ b) +:+ c = a +:+ (b +:+ c).
Proof.
  induction a as [|x a IH]; [done|].
  rewrite !append_cons. by f_equal.
Qed.

Lemma split_nonempty sep s : split sep s ≠ [].
Proof.
  induction s as [|c s IH]; simpl; [done|].
  destruct (Ascii.eqb c sep); [done|].
  by destruct (split sep s).
Qed.

Lemma split_no_sep sep s : contains sep s = false → split sep s = [s].
Proof.
  induction s as [|c s IH]; simpl; [done|].
  intros [Hc Hs]%orb_false_elim. by rewrite Hc, IH.
Qed.

(** [(a + sep + b).split(sep) == a.split(sep) + b.split(sep)] *)
Lemma split_app sep a b :
  split sep (a +:+ String sep b) = split sep a ++ split sep b.
Proof.
  induction a as [|c a IH]; [rewrite append_nil_l | rewrite append_cons]; simpl.
  - by rewrite Ascii.eqb_refl.
  - destruct (Ascii.eqb c sep); [by rewrite IH|].
    rewrite IH. pose proof (split_nonempty sep a).
    by destruct (split sep a).
Qed.

Lemma index_last_split_app sep a b :
  index_last (split sep (a +:+ String sep b)) = index_last (split sep b).
Proof.
  unfold index_last. rewrite split_app, last_app.
  pose proof (split_nonempty sep b) as Hne.
  apply last_is_Some in Hne as [x Hx]. by rewrite Hx.
Qed.

Lemma index_first_split_app sep a b :
  contains sep a = false →
  index_first (split sep (a +:+ String sep b)) = Ret a.
Proof. intros Ha. by rewrite split_app, split_no_sep. Qed.

Lemma derive_job_id_total url : ∃ job_id, derive_job_id url = Ret job_id.
Proof.
  unfold derive_job_id, index_last.
  pose proof (split_nonempty "/" url) as Hne.
  apply last_is_Some in Hne as [seg ->]. simpl.
  pose proof (split_nonempty "?" seg) as Hq.
  destruct (split "?" seg) as [|x l]; [done|]. by exists x.
Qed.

Lemma derive_job_id_trailing_slash url : derive_job_id (url +:+ "/") = Ret "".
Proof.
  unfold derive_job_id.
  change (url +:+ "/") with (url +:+ String "/" "").
  by rewrite index_last_split_app.
Qed.

Lemma fetch_104_data_with_id E url job_id w :
  derive_job_id url = Ret job_id →
  fetch_104_data E url w = fetch_with_id E job_id w.
Proof.
  intros H. unfold fetch_104_data, try_except_return, lift. by rewrite H.
Qed.

(** ** The identifier (C9, C5, C3) *)

(** C9: [url.split('/')[-1].split('?')[0]] never raises.  [split] returns at
    least one piece, so neither index can raise [IndexError] and the handler
    of lines 34-36 is never entered: for every URL the function continues
    with some identifier, and for a URL ending in [/] that identifier is the
    empty string. *)
Theorem C9_identifier_derivation_is_total (url : string) :
  split "/" url ≠ []
  ∧ (∀ e, derive_job_id url ≠ Raise e)
  ∧ (∃ job_id, derive_job_id url = Ret job_id
       ∧ ∀ E w, fetch_104_data E url w = fetch_with_id E job_id w)
  ∧ derive_job_id (url +:+ "/") = Ret "".
Proof.
  destruct (derive_job_id_total url) as [job_id Hid].
  split; [apply split_nonempty|].
  split; [intros e He; congruence|].
  split.
  - exists job_id. split; [done|]. intros E w. by apply fetch_104_data_with_id.
  - apply derive_job_id_trailing_slash.
Qed.

(** C5, as stated, fails when the query string contains a [/]: the last
    [/]-separated piece is then taken inside the query string. *)
Lemma C5_counterexample :
  derive_job_id ("https://www.104.com.tw" +:+ "/job/8863t" +:+ "?jobsource=/jobs/search")
  = Ret "search"
  ∧ derive_job_id ("https://www.104.com.tw" +:+ "/job/8863t" +:+ "?jobsource=/jobs/search")
    ≠ Ret "8863t".
Proof. split; [reflexivity | vm_compute; discriminate]. Qed.

(** C5, amended: for a URL ending in [/job/8863t], alone or followed by a
    query string that contains no [/], the derived identifier is [8863t]. *)
Theorem C5_identifier_of_job_url (prefix tail : string) :
  contains "/" tail = false →
  (tail = "" ∨ ∃ query, tail = String "?" query) →
  derive_job_id (prefix +:+ "/job/8863t" +:+ tail) = Ret "8863t".
Proof.
  intros Hslash Htail. unfold derive_job_id.
  change ("/job/8863t" +:+ tail) with ("/job" +:+ String "/" ("8863t" +:+ tail)).
  rewrite <- append_assoc, index_last_split_app.
  rewrite split_no_sep by done.
  change (index_first (split "?" ("8863t" +:+ tail)) = Ret "8863t").
  destruct Htail as [-> | [query ->]]; [done|].
  by rewrite index_first_split_app.
Qed.

Lemma C5_identifier_of_job_url_witness :
  derive_job_id ("https://www.104.com.tw" +:+ "/job/8863t" +:+ "?jobsource=hotjob_chr")
  = Ret "8863t".
Proof.
  apply (C5_identifier_of_job_url "https://www.104.com.tw" "?jobsource=hotjob_chr").
  - reflexivity.
  - right. by exists "jobsource=hotjob_chr".
Defined.

(** ** Running the monad *)

Lemma bind_lift {A B} (r : res A) (k : A → M B) (w : world) :
  bind (lift r) k w = match r with Ret a => k a w | Raise e => (Raise e, w) end.
Proof. by destruct r. Qed.

Lemma bind_ret {A B} (a : A) (k : A → M B) (w : world) :
  bind (ret a) k w = k a w.
Proof. reflexivity. Qed.

Lemma fetch_with_id_answers E job_id data w :
  answers E job_id data →
  fetch_with_id E job_id w = process_payload job_id data w.
Proof.
  intros (status & Hnet & Hstatus).
  unfold fetch_with_id, try_except_return, requests_get, bind, lift.
  rewrite Hnet. unfold raise_for_status. simpl.
  replace ((400 <=? status)%Z && (status <? 600)%Z) with false; [done|].
  symmetry. apply andb_false_iff. lia.
Qed.

Lemma fetch_104_data_answers E url job_id data w :
  derive_job_id url = Ret job_id →
  answers E job_id data →
  fetch_104_data E url w = process_payload job_id data w.
Proof.
  intros Hid Hans.
  rewrite (fetch_104_data_with_id _ _ _ _ Hid). by apply fetch_with_id_answers.
Qed.

(** ** Transport failures (C2) *)

(** What the handler of lines 44-46 does cover: an error status and a body
    that is not JSON both end in an empty dict and one logged error. *)
Lemma fetch_http_error E url w job_id status body :
  derive_job_id url = Ret job_id →
  net E (api_url job_id) headers = Ret (Response status body) →
  (400 ≤ status < 600)%Z →
  fetch_104_data E url w
  = (Ret (JDict ∅),
     {| w_log := w_log w ++ [Log ERROR "請求 API 時發生錯誤: {err}" [FExc HTTPError]];
        w_db := w_db w |}).
Proof.
  intros Hid Hnet Hstatus. rewrite (fetch_104_data_with_id _ _ _ _ Hid).
  unfold fetch_with_id, try_except_return, requests_get, bind, lift.
  rewrite Hnet. unfold raise_for_status. simpl.
  replace ((400 <=? status)%Z && (status <? 600)%Z) with true; [done|].
  symmetry. apply andb_true_iff. lia.
Qed.

Lemma fetch_undecodable_body E url w job_id status :
  derive_job_id url = Ret job_id →
  net E (api_url job_id) headers = Ret (Response status None) →
  fetch_104_data E url w
  = (Ret (JDict ∅),
     {| w_log := w_log w
          ++ [Log ERROR "請求 API 時發生錯誤: {err}"
                [FExc (if ((400 <=? status) && (status <? 600))%Z
                       then HTTPError else JSONDecodeError)]];
        w_db := w_db w |}).
Proof.
  intros Hid Hnet. rewrite (fetch_104_data_with_id _ _ _ _ Hid).
  unfold fetch_with_id, try_except_return, requests_get, bind, lift.
  rewrite Hnet. unfold raise_for_status. simpl.
  by destruct ((400 <=? status)%Z && (status <? 600)%Z).
Qed.

(** An exception of [requests.get] that the handler does not list. *)
Lemma fetch_uncaught_network_error E url w e :
  (∀ u hs, net E u hs = Raise e) →
  catches (Classes [HTTPError; JSONDecodeError]) e = false →
  fetch_104_data E url w = (Raise e, w).
Proof.
  intros Hnet Hcatch.
  destruct (derive_job_id_total url) as [job_id Hid].
  rewrite (fetch_104_data_with_id _ _ _ _ Hid).
  unfold fetch_with_id, try_except_return, requests_get. rewrite bind_lift.
  by rewrite Hnet, Hcatch.
Qed.

(** C2 fails on the code: when [requests.get] itself raises (no connection,
    a timeout), the exception is neither [HTTPError] nor [JSONDecodeError];
    the handler of line 44 does not catch it, nothing is logged, and it
    leaves [fetch_104_data] instead of the empty dict. *)
Theorem C2_network_error_propagates (url : string) (w : world)
    (faults : db_op → option exc) :
  fetch_104_data (Env (fun _ _ => Raise ConnectionError) faults) url w
  = (Raise ConnectionError, w).
Proof. by apply fetch_uncaught_network_error. Qed.

(** The network error of C2 reaches the top of the program: [main] ends
    with the exception before anything is written. *)
Lemma main_network_error E w e :
  db_fault E OpCreateAll = None →
  (∀ u hs, net E u hs = Raise e) →
  catches (Classes [HTTPError; JSONDecodeError]) e = false →
  (main E w).1 = Raise e.
Proof.
  intros Hcreate Hnet Hcatch. unfold main, create_all, db_step, bind. simpl.
  rewrite Hcreate. simpl.
  by rewrite (fetch_uncaught_network_error _ _ _ _ Hnet Hcatch).
Qed.

(** ** Processing the decoded payload *)

Lemma process_payload_absent job_id d w :
  truthy (default (JDict ∅) (d !! "data")) = false →
  process_payload job_id (JDict d) w
  = (Ret (JDict ∅),
     {| w_log := w_log w ++ [Log WARNING "職缺(ID:{job_id})內容不存在或已關閉" [FStr job_id]];
        w_db := w_db w |}).
Proof.
  intros Hfalsy. unfold process_payload, absent_or_closed.
  rewrite bind_lift. simpl py_get. cbv beta iota. by rewrite Hfalsy.
Qed.

Lemma process_payload_closed job_id d jd w :
  d !! "data" = Some (JDict jd) →
  jd !! "custSwitch" = Some (JStr "off") →
  process_payload job_id (JDict d) w
  = (Ret (JDict ∅),
     {| w_log := w_log w ++ [Log WARNING "職缺(ID:{job_id})內容不存在或已關閉" [FStr job_id]];
        w_db := w_db w |}).
Proof.
  intros Hdata Hswitch. unfold process_payload, absent_or_closed.
  rewrite bind_lift. simpl py_get. rewrite Hdata. cbv beta iota. simpl default.
  destruct (truthy (JDict jd)); [|done].
  unfold bind, lift, ret, py_get. simpl negb. cbv beta iota.
  by rewrite Hswitch.
Qed.

Lemma process_payload_open job_id d jd w :
  d !! "data" = Some (JDict jd) →
  jd ≠ ∅ →
  jd !! "custSwitch" ≠ Some (JStr "off") →
  process_payload job_id (JDict d) w = extracted_info job_id (JDict jd) w.
Proof.
  intros Hdata Hne Hswitch. unfold process_payload, absent_or_closed.
  rewrite bind_lift. simpl py_get. rewrite Hdata. cbv beta iota. simpl default.
  simpl truthy. rewrite bool_decide_eq_false_2 by done.
  unfold bind, lift, ret, py_get. simpl negb. cbv beta iota.
  replace (py_eq_str (default (JDict ∅) (jd !! "custSwitch")) "off") with false; [done|].
  destruct (jd !! "custSwitch") as [[]|] eqn:Hs; try done.
  simpl. symmetry. apply String.eqb_neq. congruence.
Qed.

Lemma custSwitch_off_dec (jd : gmap string json) :
  {jd !! "custSwitch" = Some (JStr "off")} + {jd !! "custSwitch" ≠ Some (JStr "off")}.
Proof.
  destruct (jd !! "custSwitch") as [[| | | | s | |]|]; try (right; discriminate).
  destruct (String.eqb_spec s "off") as [->|Hs]; [by left|].
  right. congruence.
Qed.

(** A non-empty result of [process_payload] is the dict display of lines
    53-72, built from a dict-valued data section. *)
Lemma process_payload_record job_id d jd w r w' :
  d !! "data" = Some (JDict jd) →
  process_payload job_id (JDict d) w = (Ret (JDict r), w') →
  r ≠ ∅ →
  extracted_info job_id (JDict jd) w = (Ret (JDict r), w').
Proof.
  intros Hdata Hrun Hrec.
  destruct (decide (jd = ∅)) as [->|Hne].
  { rewrite process_payload_absent in Hrun by (by rewrite Hdata).
    by injection Hrun as <- _. }
  destruct (custSwitch_off_dec jd) as [Hoff|Hon].
  { rewrite (process_payload_closed _ _ _ _ Hdata Hoff) in Hrun.
    by injection Hrun as <- _. }
  by rewrite (process_payload_open _ _ _ _ Hdata Hne Hon) in Hrun.
Qed.

(** ** Closed and empty postings (C6) *)

(** C6: when the response decodes to an object whose [data] section is
    missing or falsy, or whose [data] object carries [custSwitch == "off"],
    [fetch_104_data] returns the empty dict and logs exactly one warning. *)
Theorem C6_empty_or_closed_is_absent E url job_id d w :
  derive_job_id url = Ret job_id →
  answers E job_id (JDict d) →
  (truthy (default (JDict ∅) (d !! "data")) = false
   ∨ ∃ jd, d !! "data" = Some (JDict jd) ∧ jd !! "custSwitch" = Some (JStr "off")) →
  fetch_104_data E url w
  = (Ret (JDict ∅),
     {| w_log := w_log w ++ [Log WARNING "職缺(ID:{job_id})內容不存在或已關閉" [FStr job_id]];
        w_db := w_db w |}).
Proof.
  intros Hid Hans Hcase.
  rewrite (fetch_104_data_answers _ _ _ _ _ Hid Hans).
  destruct Hcase as [Hfalsy | (jd & Hdata & Hoff)].
  - by apply process_payload_absent.
  - by eapply process_payload_closed.
Qed.

Lemma C6_empty_or_closed_is_absent_witness :
  fetch_104_data (serving (JDict closed_payload)) sample_url fresh_world
  = (Ret (JDict ∅),
     {| w_log := w_log fresh_world
          ++ [Log WARNING "職缺(ID:{job_id})內容不存在或已關閉" [FStr "8863t"]];
        w_db := w_db fresh_world |}).
Proof.
  apply (C6_empty_or_closed_is_absent _ sample_url "8863t" closed_payload).
  - reflexivity.
  - exists 200%Z. split; [reflexivity | lia].
  - right. exists closed_data. split; reflexivity.
Defined.

(** ** Field extraction (C3, C4, C10, C7) *)

(** Case analysis over the rows of [field_sources], closing each with [tac]. *)
Ltac each_field Hin tac :=
  unfold field_sources in Hin;
  repeat (apply elem_of_cons in Hin as [[= -> -> -> ->] | Hin]; [tac|]);
  by apply elem_of_nil in Hin.

Lemma py_get_section_ok jd section :
  section_ok jd section →
  ∃ sec, py_get (JDict jd) section (JDict ∅) = Ret (JDict sec).
Proof. intros [Hs | [sec Hs]]; simpl; rewrite Hs; eauto. Qed.

Lemma get_source_absent jd section key dflt :
  source_absent jd section key →
  res_bind (py_get (JDict jd) section (JDict ∅)) (fun sec => py_get sec key dflt)
  = Ret dflt.
Proof.
  intros [Hs | (sec & Hs & Hk)]; simpl; rewrite Hs; simpl; [done|].
  by rewrite Hk.
Qed.

(** Reading [extracted_info] backwards: a returned record holds, under each
    field of the table, what the two chained [.get] calls produced. *)
Lemma extracted_info_inv job_id job_data w r w' :
  extracted_info job_id job_data w = (Ret (JDict r), w') →
  w' = w
  ∧ r !! "job_id" = Some (JStr job_id)
  ∧ dom r = list_to_set (column_names jobs_104_table)
  ∧ ∀ field section key dflt,
      (field, (section, key, dflt)) ∈ field_sources →
      ∃ v, res_bind (py_get job_data section (JDict ∅))
                    (fun sec => py_get sec key dflt) = Ret v
           ∧ r !! field = Some v.
Proof.
  unfold extracted_info, get_path, get_path_default.
  repeat (rewrite bind_lift;
          match goal with
          | |- context [match ?r with Ret _ => _ | Raise _ => _ end] =>
              let H := fresh "Hget" in destruct r eqn:H; [|discriminate]
          end).
  intros [= <- <-].
  split; [done|]. split; [done|]. split; [vm_compute; exact eq_refl|].
  intros field section key dflt Hin.
  each_field Hin ltac:(eexists; split; [eassumption | reflexivity]).
Qed.

(** Reading it forwards: when every section is missing or an object, no
    [.get] can fault and a record is returned without touching the world. *)
Lemma extracted_info_total job_id jd w :
  (∀ section, section ∈ sections → section_ok jd section) →
  ∃ r, extracted_info job_id (JDict jd) w = (Ret (JDict r), w).
Proof.
  intros Hok.
  assert (∀ s, s ∈ sections → ∃ sec, py_get (JDict jd) s (JDict ∅) = Ret (JDict sec))
    as Hget by (intros s Hs; by apply py_get_section_ok, Hok).
  destruct (Hget "header") as [header Hheader]; [repeat constructor|].
  destruct (Hget "jobDetail") as [jobDetail HjobDetail]; [repeat constructor|].
  destruct (Hget "condition") as [condition Hcondition]; [repeat constructor|].
  destruct (Hget "welfare") as [welfare Hwelfare]; [repeat constructor|].
  destruct (Hget "company") as [company Hcompany]; [repeat constructor|].
  destruct (Hget "contact") as [contact Hcontact]; [repeat constructor|].
  unfold extracted_info, get_path, get_path_default.
  rewrite Hheader, HjobDetail, Hcondition, Hwelfare, Hcompany, Hcontact.
  eexists. reflexivity.
Qed.

Lemma column_names_field_sources :
  column_names jobs_104_table = "job_id" :: field_sources.*1.
Proof. reflexivity. Qed.

Lemma absent_or_closed_run job_data w :
  absent_or_closed job_data w
  = (if truthy job_data
     then res_bind (py_get job_data "custSwitch" (JDict ∅))
                   (fun switch => Ret (py_eq_str switch "off"))
     else Ret true, w).
Proof.
  unfold absent_or_closed. destruct (truthy job_data); [|done].
  change (negb true) with false. cbv iota. rewrite bind_lift.
  by destruct (py_get job_data "custSwitch" (JDict ∅)).
Qed.

(** A dict returned by [process_payload] is either empty or a complete
    record carrying the identifier it was asked for. *)
Lemma process_payload_returns job_id data w v w' :
  process_payload job_id data w = (Ret v, w') →
  ∃ r, v = JDict r
       ∧ (r = ∅
          ∨ (dom r = list_to_set (column_names jobs_104_table)
             ∧ r !! "job_id" = Some (JStr job_id))).
Proof.
  unfold process_payload. rewrite bind_lift.
  destruct (py_get data "data" (JDict ∅)) as [job_data|]; [|discriminate].
  unfold bind at 1. rewrite absent_or_closed_run.
  destruct (truthy job_data).
  - destruct (py_get job_data "custSwitch" (JDict ∅)) as [switch|]; [|discriminate].
    simpl res_bind. destruct (py_eq_str switch "off").
    + intros [= <- _]. exists ∅. split; [done|]. by left.
    + intros Hrun.
      assert (∃ r, v = JDict r) as [r ->].
      { revert Hrun. unfold extracted_info, get_path, get_path_default.
        repeat (rewrite bind_lift;
                match goal with
                | |- context [match ?x with Ret _ => _ | Raise _ => _ end] =>
                    destruct x; [|discriminate]
                end).
        intros [= <- _]. eauto. }
      apply extracted_info_inv in Hrun as (_ & Hid & Hdom & _).
      exists r. split; [done|]. by right.
  - intros [= <- _]. exists ∅. split; [done|]. by left.
Qed.

(** The same for [fetch_104_data]: what it returns is a dict that is empty
    or complete, never something in between. *)
Lemma fetch_104_data_returns E url w v w' :
  fetch_104_data E url w = (Ret v, w') →
  ∃ r, v = JDict r
       ∧ (r = ∅
          ∨ (dom r = list_to_set (column_names jobs_104_table)
             ∧ ∃ job_id, derive_job_id url = Ret job_id
                         ∧ r !! "job_id" = Some (JStr job_id))).
Proof.
  destruct (derive_job_id_total url) as [job_id Hid].
  rewrite (fetch_104_data_with_id _ _ _ _ Hid).
  assert (∀ e w0, (bind (logger_error "請求 API 時發生錯誤: {err}" [FExc e])
                        (fun _ => ret (JDict ∅))) w0 = (Ret v, w') →
                  ∃ r, v = JDict r
                       ∧ (r = ∅
                          ∨ (dom r = list_to_set (column_names jobs_104_table)
                             ∧ ∃ job_id, derive_job_id url = Ret job_id
                                 ∧ r !! "job_id" = Some (JStr job_id)))) as Hhandler.
  { intros e w0 [= <- _]. exists ∅. split; [done|]. by left. }
  unfold fetch_with_id, try_except_return, requests_get. rewrite bind_lift.
  destruct (net E (api_url job_id) headers) as [resp|e].
  - unfold bind, raise_for_status, response_json.
    destruct ((400 <=? status_code resp)%Z && (status_code resp <? 600)%Z);
      [apply Hhandler|].
    simpl. destruct (body_json resp) as [data|]; [|apply Hhandler].
    simpl. intros Hrun.
    destruct (process_payload_returns _ _ _ _ _ Hrun) as (r & -> & [->|[Hdom Hjob]]).
    + exists ∅. split; [done|]. by left.
    + exists r. split; [done|]. right. split; [done|]. by exists job_id.
  - destruct (catches (Classes [HTTPError; JSONDecodeError]) e);
      [apply Hhandler | discriminate].
Qed.

Lemma serving_answers data job_id : answers (serving data) job_id data.
Proof. exists 200%Z. split; [reflexivity | lia]. Qed.

Lemma fetch_record E url job_id d jd w r w' :
  derive_job_id url = Ret job_id →
  answers E job_id (JDict d) →
  d !! "data" = Some (JDict jd) →
  fetch_104_data E url w = (Ret (JDict r), w') →
  r ≠ ∅ →
  extracted_info job_id (JDict jd) w = (Ret (JDict r), w').
Proof.
  intros Hid Hans Hdata Hrun Hrec.
  rewrite (fetch_104_data_answers _ _ _ _ _ Hid Hans) in Hrun.
  by eapply process_payload_record.
Qed.

(** C3 fails on the code: a URL that ends in [/] has an empty last segment,
    yet no error is signalled; the request goes out for the empty
    identifier and, when the server answers with a posting, a record whose
    [job_id] is the empty string is returned. *)
Theorem C3_empty_identifier_yields_record (prefix : string) (w : world) :
  derive_job_id (prefix +:+ "/") = Ret ""
  ∧ ∃ r, fetch_104_data (serving (JDict open_payload)) (prefix +:+ "/") w
         = (Ret (JDict r), w)
       ∧ r !! "job_id" = Some (JStr "")
       ∧ r !! "title" = Some (JStr "Backend Engineer").
Proof.
  pose proof (derive_job_id_trailing_slash prefix) as Hid.
  split; [done|].
  rewrite (fetch_104_data_answers _ _ _ _ _ Hid (serving_answers _ _)).
  rewrite (process_payload_open "" open_payload open_data) by done.
  eexists. split; [reflexivity|]. split; reflexivity.
Qed.

(** C4: in a returned record, [contact_phone] is the placeholder whenever
    its source value is absent (no [contact] section, or a [contact] object
    without the key); the placeholder is not null; every other field read
    from the payload is null when its source value is absent; and the
    record has no further fields besides [job_id]. *)
Theorem C4_contact_phone_placeholder E url job_id d jd w r w' :
  derive_job_id url = Ret job_id →
  answers E job_id (JDict d) →
  d !! "data" = Some (JDict jd) →
  fetch_104_data E url w = (Ret (JDict r), w') →
  r ≠ ∅ →
  (source_absent jd "contact" "email" →
     r !! "contact_phone" = Some (JStr placeholder))
  ∧ JStr placeholder ≠ JNull
  ∧ (∀ field section key dflt,
       (field, (section, key, dflt)) ∈ field_sources →
       field ≠ "contact_phone" →
       dflt = JNull ∧ (source_absent jd section key → r !! field = Some JNull))
  ∧ (∀ field, is_Some (r !! field) →
       field = "job_id" ∨ ∃ source, (field, source) ∈ field_sources).
Proof.
  intros Hid Hans Hdata Hrun Hrec.
  apply (fetch_record _ _ _ _ _ _ _ _ Hid Hans Hdata) in Hrun; [|done].
  apply extracted_info_inv in Hrun as (_ & _ & Hdom & Hfields).
  split; [|split; [done|split]].
  - intros Habs.
    destruct (Hfields "contact_phone" "contact" "email" (JStr placeholder))
      as (v & Hv & ->); [unfold field_sources; repeat constructor|].
    rewrite get_source_absent in Hv by done. congruence.
  - intros field section key dflt Hin Hfield.
    assert (dflt = JNull) as ->.
    { each_field Hin ltac:(done). }
    split; [done|]. intros Habs.
    destruct (Hfields _ _ _ _ Hin) as (v & Hv & ->).
    rewrite get_source_absent in Hv by done. congruence.
  - intros field Hfield.
    apply elem_of_dom in Hfield. rewrite Hdom in Hfield.
    apply elem_of_list_to_set in Hfield.
    rewrite column_names_field_sources in Hfield.
    apply elem_of_cons in Hfield as [->|Hfield]; [by left|].
    right. apply list_elem_of_fmap in Hfield as ([f source] & -> & Hin).
    by exists source.
Qed.

Lemma C4_contact_phone_placeholder_witness :
  returned_dict (fetch_104_data (serving (JDict open_payload)) sample_url fresh_world)
    !! "contact_phone" = Some (JStr placeholder).
Proof.
  refine (proj1 (C4_contact_phone_placeholder
                   (serving (JDict open_payload)) sample_url "8863t"
                   open_payload open_data fresh_world _ fresh_world _ _ _ _ _) _).
  - reflexivity.
  - exists 200%Z. split; [reflexivity | lia].
  - reflexivity.
  - vm_compute. exact eq_refl.
  - intros Hempty. apply (f_equal (fun m => m !! "job_id")) in Hempty.
    vm_compute in Hempty. discriminate Hempty.
  - right. exists {[ "hrName" := JStr "Ms. Chen" ]}. split; reflexivity.
Defined.

(** C10: [contact_phone] is read from the [email] key of the [contact]
    section.  In a returned record it is the placeholder when the section is
    missing or is an object without that key, and otherwise it is whatever
    the key maps to; in particular an explicit [null] stays [null]. *)
Theorem C10_contact_phone_reads_email E url job_id d jd w r w' :
  derive_job_id url = Ret job_id →
  answers E job_id (JDict d) →
  d !! "data" = Some (JDict jd) →
  fetch_104_data E url w = (Ret (JDict r), w') →
  r ≠ ∅ →
  (jd !! "contact" = None → r !! "contact_phone" = Some (JStr placeholder))
  ∧ (∀ contact, jd !! "contact" = Some (JDict contact) →
       r !! "contact_phone" = Some (default (JStr placeholder) (contact !! "email")))
  ∧ (∀ contact, jd !! "contact" = Some (JDict contact) →
       contact !! "email" = Some JNull → r !! "contact_phone" = Some JNull).
Proof.
  intros Hid Hans Hdata Hrun Hrec.
  apply (fetch_record _ _ _ _ _ _ _ _ Hid Hans Hdata) in Hrun; [|done].
  apply extracted_info_inv in Hrun as (_ & _ & _ & Hfields).
  destruct (Hfields "contact_phone" "contact" "email" (JStr placeholder))
    as (v & Hv & ->); [unfold field_sources; repeat constructor|].
  simpl in Hv.
  assert (∀ contact, jd !! "contact" = Some (JDict contact) →
            Some v = Some (default (JStr placeholder) (contact !! "email"))) as Hsome.
  { intros contact Hc. rewrite Hc in Hv. simpl in Hv. by injection Hv as <-. }
  split; [|split].
  - intros Hnone. rewrite Hnone in Hv. simpl in Hv. by injection Hv as <-.
  - done.
  - intros contact Hc Hnull. rewrite (Hsome _ Hc). by rewrite Hnull.
Qed.

Lemma C10_contact_phone_reads_email_witness :
  returned_dict (fetch_104_data (serving (JDict null_email_payload)) sample_url fresh_world)
    !! "contact_phone" = Some JNull.
Proof.
  refine (proj2 (proj2 (C10_contact_phone_reads_email
                   (serving (JDict null_email_payload)) sample_url "8863t"
                   null_email_payload null_email_data fresh_world _ fresh_world
                   _ _ _ _ _))
                (<["email" := JNull]> {[ "hrName" := JStr "Ms. Chen" ]}) _ _).
  - reflexivity.
  - exists 200%Z. split; [reflexivity | lia].
  - reflexivity.
  - vm_compute. exact eq_refl.
  - intros Hempty. apply (f_equal (fun m => m !! "job_id")) in Hempty.
    vm_compute in Hempty. discriminate Hempty.
  - reflexivity.
  - reflexivity.
Defined.

(** C7, as stated, fails twice.  When the [contact] section is missing, the
    dependent field [contact_phone] is the placeholder, not null; and a
    section that is present but is not an object ([null] here) makes the
    chained [.get] raise [AttributeError] out of [fetch_104_data]. *)
Lemma C7_counterexample :
  (no_contact_data !! "contact" = None
   ∧ returned_dict (fetch_104_data (serving (JDict no_contact_payload)) sample_url fresh_world)
       !! "contact_phone" = Some (JStr "未提供")
   ∧ returned_dict (fetch_104_data (serving (JDict no_contact_payload)) sample_url fresh_world)
       !! "contact_phone" ≠ Some JNull)
  ∧ (truthy (JDict null_welfare_data) = true
     ∧ null_welfare_data !! "custSwitch" = None
     ∧ fetch_104_data (serving (JDict null_welfare_payload)) sample_url fresh_world
       = (Raise AttributeError, fresh_world)).
Proof.
  split; [split; [reflexivity | split; [reflexivity | vm_compute; discriminate]]|].
  split; [reflexivity|]. split; [reflexivity|].
  vm_compute. exact eq_refl.
Qed.

(** C7, amended: when the data section is a non-empty object that is not
    switched off and each of its six sections is either missing or an
    object, [fetch_104_data] returns a record with exactly the eighteen
    fields and leaves the world as it was; a field whose section is missing
    holds the default of its inner [.get], which is null for every field
    but [contact_phone] and the placeholder for that one. *)
Theorem C7_extraction_total_on_object_sections E url job_id d jd w :
  derive_job_id url = Ret job_id →
  answers E job_id (JDict d) →
  d !! "data" = Some (JDict jd) →
  jd ≠ ∅ →
  jd !! "custSwitch" ≠ Some (JStr "off") →
  (∀ section, section ∈ sections → section_ok jd section) →
  ∃ r, fetch_104_data E url w = (Ret (JDict r), w)
     ∧ dom r = list_to_set (column_names jobs_104_table)
     ∧ ∀ field section key dflt,
         (field, (section, key, dflt)) ∈ field_sources →
         jd !! section = None →
         r !! field = Some dflt
         ∧ (dflt = JNull ∨ field = "contact_phone" ∧ dflt = JStr placeholder).
Proof.
  intros Hid Hans Hdata Hne Hopen Hok.
  rewrite (fetch_104_data_answers _ _ _ _ _ Hid Hans).
  rewrite (process_payload_open _ _ _ _ Hdata Hne Hopen).
  destruct (extracted_info_total job_id jd w Hok) as [r Hr].
  exists r. split; [done|].
  apply extracted_info_inv in Hr as (_ & _ & Hdom & Hfields).
  split; [done|].
  intros field section key dflt Hin Hmissing. split.
  - destruct (Hfields _ _ _ _ Hin) as (v & Hv & ->).
    rewrite get_source_absent in Hv by (by left). congruence.
  - each_field Hin ltac:(by eauto).
Qed.

Lemma C7_extraction_total_on_object_sections_witness :
  ∃ r, fetch_104_data (serving (JDict open_payload)) sample_url fresh_world
       = (Ret (JDict r), fresh_world)
     ∧ dom r = list_to_set (column_names jobs_104_table)
     ∧ ∀ field section key dflt,
         (field, (section, key, dflt)) ∈ field_sources →
         open_data !! section = None →
         r !! field = Some dflt
         ∧ (dflt = JNull ∨ field = "contact_phone" ∧ dflt = JStr placeholder).
Proof.
  apply (C7_extraction_total_on_object_sections
           (serving (JDict open_payload)) sample_url "8863t" open_payload open_data).
  - reflexivity.
  - exists 200%Z. split; [reflexivity | lia].
  - reflexivity.
  - intros Hempty. apply (f_equal (fun m => m !! "header")) in Hempty.
    vm_compute in Hempty. discriminate Hempty.
  - vm_compute. discriminate.
  - intros section Hsec. unfold sections in Hsec.
    repeat (apply elem_of_cons in Hsec as [-> | Hsec];
            [first [by left | right; eexists; reflexivity]|]).
    by apply elem_of_nil in Hsec.
Defined.

(** ** The upsert statement *)

Lemma update_columns_jobs_104 :
  update_columns jobs_104_table = map (fun c => (c, Inserted c)) field_sources.*1.
Proof. reflexivity. Qed.

Lemma row_key_jobs_104 (r : gmap string json) (k : list string) :
  row_key jobs_104_table r = Some k ↔ ∃ id, k = [id] ∧ r !! "job_id" = Some (JStr id).
Proof.
  unfold row_key. simpl.
  destruct (r !! "job_id") as [[| | | | s | |]|]; simpl; split; try done;
    try (by intros (id & _ & ?)).
  - intros [= <-]. by exists s.
  - intros (id & -> & [= ->]). done.
Qed.

Lemma foldl_assign_lookup (names : list string) (new old : gmap string json) (k : string) :
  foldl (fun acc '(name, e) => <[name := eval_expr new e]> acc) old
        (map (fun c => (c, Inserted c)) names) !! k
  = if decide (k ∈ names) then Some (default JNull (new !! k)) else old !! k.
Proof.
  revert old. induction names as [|c names IH]; intros old.
  - destruct (decide (k ∈ [])) as [Hin|_]; [by apply elem_of_nil in Hin | done].
  - cbn [map foldl]. rewrite IH.
    destruct (decide (k ∈ names)) as [Hin|Hnot]; destruct (decide (k ∈ c :: names)) as [Hin'|Hnot'].
    + done.
    + exfalso. apply Hnot'. by right.
    + apply elem_of_cons in Hin' as [->|?]; [|done].
      by rewrite lookup_insert_eq.
    + rewrite lookup_insert_ne; [done|]. intros ->. apply Hnot'. by left.
Qed.

Lemma on_duplicate_lookup (new old : gmap string json) (k : string) :
  on_duplicate (update_stmt new) new old !! k
  = if decide (k ∈ field_sources.*1) then Some (default JNull (new !! k)) else old !! k.
Proof.
  unfold on_duplicate, update_stmt, on_duplicate_key_update. cbn [ins_on_duplicate].
  rewrite update_columns_jobs_104. apply foldl_assign_lookup.
Qed.

Lemma inserted_row_full (r : gmap string json) :
  dom r = list_to_set (column_names jobs_104_table) →
  inserted_row (update_stmt r) = r.
Proof.
  intros Hdom. apply map_eq. intros k.
  unfold inserted_row, update_stmt, on_duplicate_key_update, values, insert.
  cbn [ins_values ins_table].
  destruct (decide (k ∈ column_names jobs_104_table)) as [Hin|Hnot].
  - assert (is_Some (r !! k)) as [v Hv].
    { apply elem_of_dom. rewrite Hdom. by apply elem_of_list_to_set. }
    rewrite Hv. apply elem_of_list_to_map_1.
    + rewrite <- list_fmap_compose. apply (bool_decide_unpack _). vm_compute. exact I.
    + apply list_elem_of_fmap. unfold column_names in Hin.
      apply list_elem_of_fmap in Hin as (col & -> & Hcol).
      exists col. by rewrite Hv.
  - rewrite (not_elem_of_list_to_map_1 _ k).
    + symmetry. apply not_elem_of_dom. rewrite Hdom. by rewrite elem_of_list_to_set.
    + by rewrite <- list_fmap_compose.
Qed.

Lemma job_id_not_updated : "job_id" ∉ field_sources.*1.
Proof. apply (bool_decide_unpack _). vm_compute. exact I. Qed.

Lemma row_key_ext (r r' : gmap string json) :
  r !! "job_id" = r' !! "job_id" → row_key jobs_104_table r = row_key jobs_104_table r'.
Proof. unfold row_key. simpl. by intros ->. Qed.

Lemma has_key_on_duplicate k (new old : gmap string json) :
  has_key jobs_104_table k (on_duplicate (update_stmt new) new old)
  = has_key jobs_104_table k old.
Proof.
  unfold has_key. rewrite (row_key_ext _ old); [done|].
  rewrite on_duplicate_lookup. by rewrite decide_False by apply job_id_not_updated.
Qed.

Lemma has_key_jobs_104 (r : gmap string json) (id : string) :
  has_key jobs_104_table [id] r = true ↔ r !! "job_id" = Some (JStr id).
Proof.
  unfold has_key. rewrite bool_decide_eq_true, row_key_jobs_104. split.
  - by intros (id' & [= <-] & H).
  - intros H. by exists id.
Qed.

Lemma filter_map_preserved {A} (q : A → bool) (f : A → A) (l : list A) :
  (∀ x, q (f x) = q x) →
  List.filter q (map f l) = map f (List.filter q l).
Proof.
  intros Hq. induction l as [|x l IH]; simpl; [done|].
  rewrite Hq. destruct (q x); simpl; by rewrite IH.
Qed.

Lemma existsb_filter_nil {A} (q : A → bool) (l : list A) :
  List.existsb q l = false → List.filter q l = [].
Proof.
  induction l as [|x l IH]; simpl; [done|].
  destruct (q x); simpl; [done|]. exact IH.
Qed.

Lemma existsb_filter_cons {A} (q : A → bool) (l : list A) :
  List.existsb q l = true → ∃ x l', List.filter q l = x :: l' ∧ q x = true.
Proof.
  induction l as [|x l IH]; simpl; [done|].
  destruct (q x) eqn:Hx; simpl; [eauto|]. exact IH.
Qed.

Lemma exec_upsert_full (r : gmap string json) (id : string) rows :
  dom r = list_to_set (column_names jobs_104_table) →
  r !! "job_id" = Some (JStr id) →
  exec_upsert (update_stmt r) rows
  = Ret (if List.existsb (has_key jobs_104_table [id]) rows
         then map (fun old => if has_key jobs_104_table [id] old
                              then on_duplicate (update_stmt r) r old else old) rows
         else rows ++ [r]).
Proof.
  intros Hdom Hid. unfold exec_upsert.
  rewrite (inserted_row_full r Hdom).
  change (ins_table (update_stmt r)) with jobs_104_table.
  change (ins_values (update_stmt r)) with r.
  rewrite bool_decide_eq_true_2 by (by rewrite Hdom).
  assert (row_key jobs_104_table r = Some [id]) as ->
    by (apply row_key_jobs_104; by exists id).
  by destruct (List.existsb (has_key jobs_104_table [id]) rows).
Qed.

(** One upsert of a full record: the key constraint is kept, and the table
    then holds exactly one row under the record's identifier, equal to the
    record in every column. *)
Lemma exec_upsert_overwrites (r : gmap string json) (id : string) rows :
  dom r = list_to_set (column_names jobs_104_table) →
  r !! "job_id" = Some (JStr id) →
  pk_unique jobs_104_table rows →
  ∃ rows', exec_upsert (update_stmt r) rows = Ret rows'
    ∧ pk_unique jobs_104_table rows'
    ∧ ∃ row, List.filter (has_key jobs_104_table [id]) rows' = [row]
        ∧ ∀ c, c ∈ column_names jobs_104_table → row !! c = r !! c.
Proof.
  intros Hdom Hid Hpk. rewrite (exec_upsert_full r id rows Hdom Hid).
  eexists. split; [reflexivity|].
  destruct (List.existsb (has_key jobs_104_table [id]) rows) eqn:Hex.
  - set (f := fun old => if has_key jobs_104_table [id] old
                         then on_duplicate (update_stmt r) r old else old).
    assert (∀ k x, has_key jobs_104_table k (f x) = has_key jobs_104_table k x) as Hf.
    { intros k x. unfold f. destruct (has_key jobs_104_table [id] x); [|done].
      apply has_key_on_duplicate. }
    split.
    + intros k. rewrite filter_map_preserved by apply Hf.
      rewrite length_map. apply Hpk.
    + rewrite filter_map_preserved by apply Hf.
      apply existsb_filter_cons in Hex as (x & l' & Hfilter & Hx).
      pose proof (Hpk [id]) as Hlen. rewrite Hfilter in Hlen.
      destruct l' as [|y l']; [|simpl in Hlen; lia].
      rewrite Hfilter. exists (f x). split; [done|].
      intros c Hc. unfold f. rewrite Hx, on_duplicate_lookup.
      apply has_key_jobs_104 in Hx.
      rewrite column_names_field_sources in Hc.
      destruct (decide (c ∈ field_sources.*1)) as [Hin|Hnot].
      * assert (is_Some (r !! c)) as [v ->]; [|done].
        apply elem_of_dom. rewrite Hdom, column_names_field_sources.
        apply elem_of_list_to_set. by right.
      * apply elem_of_cons in Hc as [->|?]; [|done]. by rewrite Hx, Hid.
  - apply existsb_filter_nil in Hex.
    assert (has_key jobs_104_table [id] r = true) as Hr by (by apply has_key_jobs_104).
    split.
    + intros k. rewrite List.filter_app, length_app. simpl.
      destruct (has_key jobs_104_table k r) eqn:Hk; simpl.
      * apply bool_decide_eq_true in Hk.
        apply bool_decide_eq_true in Hr. rewrite Hr in Hk. injection Hk as <-.
        rewrite Hex. simpl. lia.
      * pose proof (Hpk k). lia.
    + exists r. rewrite List.filter_app, Hex. simpl. by rewrite Hr.
Qed.

(** ** The transaction *)

(** The [with] block of lines 146-147, case by case. *)
Lemma upsert_block_run E s w :
  engine_begin E (conn_execute E s) w
  = match db_fault E OpBegin with
    | Some e => (Raise e, w)
    | None =>
    match db_fault E OpExecute with
    | Some e => (Raise e, w)
    | None =>
    match w_db w !! table_name (ins_table s) with
    | None => (Raise ProgrammingError, w)
    | Some rows =>
    match exec_upsert s rows with
    | Raise e => (Raise e, w)
    | Ret rows' =>
    match db_fault E OpCommit with
    | Some e => (Raise e, w)
    | None => (Ret tt, set_db (<[table_name (ins_table s) := rows']> (w_db w)) w)
    end end end end end.
Proof.
  destruct w as [l db].
  unfold engine_begin, conn_execute, db_step, bind, raise, ret, set_db.
  destruct (db_fault E OpBegin); [done|].
  destruct (db_fault E OpExecute); [done|].
  cbn [w_db w_log].
  destruct (db !! table_name (ins_table s)) as [rows|]; [|done].
  destruct (exec_upsert s rows); [|done].
  by destruct (db_fault E OpCommit).
Qed.

(** Whatever the block does, a block that raises leaves the database as the
    transaction found it. *)
Lemma engine_begin_rolls_back {A} E (body : M A) w e w' :
  engine_begin E body w = (Raise e, w') → w_db w' = w_db w.
Proof.
  unfold engine_begin, db_step, bind, raise, ret.
  destruct (db_fault E OpBegin); [by intros [= _ <-]|].
  destruct (body w) as [[a|e'] w1].
  - destruct (db_fault E OpCommit); [by intros [= _ <-]|done].
  - by intros [= _ <-].
Qed.

Lemma upsert_raises_frame E r w w0 e :
  upsert_raises E r w e →
  w_db w0 = w_db w →
  engine_begin E (conn_execute E (update_stmt r)) w0 = (Raise e, w0).
Proof.
  unfold upsert_raises. rewrite !upsert_block_run. intros Hraise ->.
  destruct (db_fault E OpBegin); [simpl in Hraise; congruence|].
  destruct (db_fault E OpExecute); [simpl in Hraise; congruence|].
  destruct (w_db w !! table_name (ins_table (update_stmt r))) as [rows|];
    [|simpl in Hraise; congruence].
  destruct (exec_upsert (update_stmt r) rows); [|simpl in Hraise; congruence].
  destruct (db_fault E OpCommit); simpl in Hraise; congruence.
Qed.

Lemma write_to_db_ok E r w rows rows' v :
  (∀ op, db_fault E op = None) →
  w_db w !! "jobs_104" = Some rows →
  exec_upsert (update_stmt r) rows = Ret rows' →
  r !! "job_id" = Some v →
  write_to_db E (JDict r) w
  = (Ret tt,
     {| w_log := w_log w
          ++ [Log INFO "資料抓取成功！準備寫入資料庫..." [];
              Log INFO "資料 (job_id: {job_details['job_id']}) 已成功插入或更新至資料庫。"
                  [FVal v]];
        w_db := <["jobs_104" := rows']> (w_db w) |}).
Proof.
  intros Hfault Hrows Hexec Hid.
  unfold write_to_db, try_except, try_except_return.
  unfold bind at 1. unfold logger_info at 1, logger.
  rewrite bind_lift. simpl kwargs. cbv beta iota.
  unfold bind at 1. rewrite upsert_block_run, !Hfault.
  change (table_name (ins_table (update_stmt r))) with "jobs_104".
  simpl w_db. rewrite Hrows, Hexec.
  rewrite bind_lift. unfold py_getitem. rewrite Hid.
  unfold logger_info, logger, set_db, ret. simpl.
  by rewrite <- app_assoc.
Qed.

(** ** Last write wins (C1) *)

(** C1: on a table that satisfies its key constraint and a database that
    does not fail, writing a record and then a second record with the same
    identifier leaves exactly one row under that identifier, and that row
    equals the second record in every column of the table, nulls
    included. *)
Theorem C1_upsert_last_write_wins E w rows r1 r2 id :
  (∀ op, db_fault E op = None) →
  w_db w !! "jobs_104" = Some rows →
  pk_unique jobs_104_table rows →
  dom r1 = list_to_set (column_names jobs_104_table) →
  dom r2 = list_to_set (column_names jobs_104_table) →
  r1 !! "job_id" = Some (JStr id) →
  r2 !! "job_id" = Some (JStr id) →
  ∃ rows' row,
    w_db (write_to_db E (JDict r2) (write_to_db E (JDict r1) w).2).2 !! "jobs_104"
      = Some rows'
    ∧ List.filter (has_key jobs_104_table [id]) rows' = [row]
    ∧ ∀ c, c ∈ column_names jobs_104_table → row !! c = r2 !! c.
Proof.
  intros Hfault Hrows Hpk Hdom1 Hdom2 Hid1 Hid2.
  destruct (exec_upsert_overwrites r1 id rows Hdom1 Hid1 Hpk)
    as (rows1 & Hexec1 & Hpk1 & _).
  destruct (exec_upsert_overwrites r2 id rows1 Hdom2 Hid2 Hpk1)
    as (rows2 & Hexec2 & _ & row & Hrow & Hcols).
  rewrite (write_to_db_ok E r1 w rows rows1 _ Hfault Hrows Hexec1 Hid1).
  cbn [snd].
  erewrite (write_to_db_ok E r2 _ rows1 rows2 _ Hfault _ Hexec2 Hid2).
  cbn [snd w_db].
  exists rows2, row. by rewrite lookup_insert_eq.
  Unshelve. cbn [w_db]. by rewrite lookup_insert_eq.
Qed.

Lemma C1_upsert_last_write_wins_witness :
  ∃ rows' row,
    w_db (write_to_db (serving (JDict open_payload)) (JDict sample_record_2)
            (write_to_db (serving (JDict open_payload)) (JDict sample_record)
               ready_world).2).2 !! "jobs_104"
      = Some rows'
    ∧ List.filter (has_key jobs_104_table ["8863t"]) rows' = [row]
    ∧ ∀ c, c ∈ column_names jobs_104_table → row !! c = sample_record_2 !! c.
Proof.
  apply (C1_upsert_last_write_wins (serving (JDict open_payload)) ready_world []).
  - intros op. reflexivity.
  - reflexivity.
  - intros k. simpl. lia.
  - vm_compute. exact eq_refl.
  - vm_compute. exact eq_refl.
  - vm_compute. exact eq_refl.
  - vm_compute. exact eq_refl.
Defined.

(** ** Database failures (C8) *)

(** C8: when the [with] block raises an exception [e] that derives from
    [Exception], because the connection could not be opened, the statement
    failed or the commit failed, [write_to_db] still returns normally; it
    has logged [e] as an error, and the database is exactly what it was
    before the block, whatever the statement had already changed. *)
Theorem C8_database_errors_are_caught E r w e :
  upsert_raises E r w e →
  e ≠ KeyboardInterrupt →
  write_to_db E (JDict r) w
  = (Ret tt,
     {| w_log := w_log w
          ++ [Log INFO "資料抓取成功！準備寫入資料庫..." [];
              Log ERROR "寫入資料庫時發生錯誤: {e}" [FExc e]];
        w_db := w_db w |}).
Proof.
  intros Hraise Hexc.
  unfold write_to_db, try_except, try_except_return.
  unfold bind at 1. unfold logger_info at 1, logger.
  rewrite bind_lift. simpl kwargs. cbv beta iota.
  unfold bind at 1.
  rewrite (upsert_raises_frame E r w _ e Hraise) by done.
  unfold catches. rewrite bool_decide_eq_false_2 by done.
  unfold logger_error, logger. simpl. by rewrite <- app_assoc.
Qed.

Lemma C8_database_errors_are_caught_witness :
  write_to_db commit_fails (JDict sample_record) ready_world
  = (Ret tt,
     {| w_log := w_log ready_world
          ++ [Log INFO "資料抓取成功！準備寫入資料庫..." [];
              Log ERROR "寫入資料庫時發生錯誤: {e}" [FExc OperationalError]];
        w_db := w_db ready_world |}).
Proof.
  apply (C8_database_errors_are_caught commit_fails sample_record ready_world OperationalError).
  - vm_compute. exact eq_refl.
  - discriminate.
Defined.

(** * Further properties *)

(** ** More on the identifier *)

Lemma contains_app c a b :
  contains c (a +:+ b) = contains c a || contains c b.
Proof.
  induction a as [|x a IH]; [done|].
  rewrite append_cons. simpl. rewrite IH. by rewrite orb_assoc.
Qed.

(** No piece of [s.split(sep)] contains [sep]. *)
Lemma split_pieces_no_sep sep s :
  Forall (fun piece => contains sep piece = false) (split sep s).
Proof.
  induction s as [|c s IH]; simpl.
  - by repeat constructor.
  - destruct (Ascii.eqb c sep) eqn:Hc; [by constructor|].
    destruct (split sep s) as [|piece pieces]; simpl.
    + repeat constructor. simpl. by rewrite Hc.
    + apply Forall_cons in IH as [Hpiece Hpieces].
      constructor; [|done]. simpl. by rewrite Hc, Hpiece.
Qed.

(** A character that is not in [s] is in no piece of [s.split(sep)]. *)
Lemma split_pieces_no_char sep c s :
  contains c s = false →
  Forall (fun piece => contains c piece = false) (split sep s).
Proof.
  induction s as [|x s IH]; simpl.
  - intros _. by repeat constructor.
  - intros [Hx Hs]%orb_false_elim. specialize (IH Hs).
    destruct (Ascii.eqb x sep); [by constructor|].
    destruct (split sep s) as [|piece pieces]; simpl.
    + repeat constructor. simpl. by rewrite Hx.
    + apply Forall_cons in IH as [Hpiece Hpieces].
      constructor; [|done]. simpl. by rewrite Hx, Hpiece.
Qed.

Lemma derive_job_id_no_separator url job_id :
  derive_job_id url = Ret job_id →
  contains "/" job_id = false ∧ contains "?" job_id = false.
Proof.
  unfold derive_job_id, index_last.
  destruct (last (split "/" url)) as [seg|] eqn:Hlast; [|discriminate].
  simpl. unfold index_first.
  destruct (split "?" seg) as [|piece pieces] eqn:Hsplit; [discriminate|].
  intros [= ->].
  assert (contains "/" seg = false) as Hseg.
  { apply last_Some in Hlast as [l' Hl'].
    pose proof (split_pieces_no_sep "/" url) as Hall. rewrite Hl' in Hall.
    apply Forall_app in Hall as [_ Hall]. by apply Forall_inv in Hall. }
  split.
  - pose proof (split_pieces_no_char "?" "/" seg Hseg) as Hall.
    rewrite Hsplit in Hall. by apply Forall_cons in Hall as [? _].
  - pose proof (split_pieces_no_sep "?" seg) as Hall.
    rewrite Hsplit in Hall. by apply Forall_cons in Hall as [? _].
Qed.

Lemma derive_job_id_clean job_id :
  contains "/" job_id = false → contains "?" job_id = false →
  derive_job_id job_id = Ret job_id.
Proof.
  intros Hslash Hquery. unfold derive_job_id.
  rewrite (split_no_sep "/" job_id Hslash). simpl.
  by rewrite (split_no_sep "?" job_id Hquery).
Qed.

(** X6: the identifier that line 33 derives never contains a [/] or a [?],
    and deriving again from the identifier itself gives it back. *)
Theorem identifier_has_no_separator url job_id :
  derive_job_id url = Ret job_id →
  contains "/" job_id = false
  ∧ contains "?" job_id = false
  ∧ derive_job_id job_id = Ret job_id.
Proof.
  intros [Hslash Hquery]%derive_job_id_no_separator.
  split; [done|]. split; [done|]. by apply derive_job_id_clean.
Qed.

Lemma identifier_has_no_separator_witness :
  contains "/" "8863t" = false
  ∧ contains "?" "8863t" = false
  ∧ derive_job_id "8863t" = Ret "8863t".
Proof.
  apply (identifier_has_no_separator "https://www.104.com.tw/job/8863t?jobsource=hotjob_chr").
  reflexivity.
Defined.

(** X7: line 33 recovers any identifier free of [/] and [?] from a URL
    that ends in [/] followed by the identifier, alone or followed by a
    query string without [/]. *)
Theorem identifier_round_trip prefix job_id query :
  contains "/" job_id = false →
  contains "?" job_id = false →
  contains "/" query = false →
  derive_job_id (prefix +:+ String "/" job_id) = Ret job_id
  ∧ derive_job_id (prefix +:+ String "/" (job_id +:+ String "?" query)) = Ret job_id.
Proof.
  intros Hslash Hquery Hq. unfold derive_job_id.
  rewrite !index_last_split_app. split.
  - rewrite (split_no_sep "/" job_id Hslash). simpl.
    by rewrite (split_no_sep "?" job_id Hquery).
  - rewrite split_no_sep.
    + simpl. by rewrite index_first_split_app.
    + rewrite contains_app. rewrite Hslash. simpl. exact Hq.
Qed.

Lemma identifier_round_trip_witness :
  derive_job_id ("https://www.104.com.tw/job" +:+ String "/" "7abc1") = Ret "7abc1"
  ∧ derive_job_id ("https://www.104.com.tw/job" +:+ String "/" ("7abc1" +:+ String "?" "jobsource=index_s"))
    = Ret "7abc1".
Proof.
  apply (identifier_round_trip "https://www.104.com.tw/job" "7abc1" "jobsource=index_s");
    reflexivity.
Defined.

Lemma logged_nil w : logged [] w = w.
Proof. destruct w. unfold logged. simpl. by rewrite app_nil_r. Qed.

Lemma py_get_raises v key dflt e : py_get v key dflt = Raise e → e = AttributeError.
Proof. destruct v; simpl; congruence. Qed.

Lemma get_chain_raises job_data section key dflt e :
  res_bind (py_get job_data section (JDict ∅)) (fun sec => py_get sec key dflt) = Raise e →
  e = AttributeError.
Proof.
  destruct (py_get job_data section (JDict ∅)) as [sec|e'] eqn:Hs; simpl.
  - apply py_get_raises.
  - intros [= <-]. by eapply py_get_raises.
Qed.

(** [extracted_info] does not touch the world, and what it returns does
    not depend on the world: a non-empty dict, or [AttributeError]. *)
Lemma extracted_info_run job_id job_data w w0 :
  ∃ r, extracted_info job_id job_data w = (r, w)
       ∧ extracted_info job_id job_data w0 = (r, w0)
       ∧ r ≠ Ret (JDict ∅)
       ∧ (∀ e, r = Raise e → e = AttributeError).
Proof.
  unfold extracted_info, get_path, get_path_default.
  repeat (rewrite !bind_lift;
          match goal with
          | |- context [match ?x with Ret _ => _ | Raise _ => _ end] =>
              let H := fresh "Hget" in
              destruct x eqn:H;
              [| apply get_chain_raises in H; subst;
                 eexists; split; [reflexivity|]; split; [reflexivity|];
                 split; [discriminate | by intros ? [= <-]] ]
          end).
  eexists. split; [reflexivity|]. split; [reflexivity|].
  split; [|discriminate].
  by intros [= Hempty].
Qed.

Lemma process_payload_run job_id data w w0 :
  ∃ r entries,
    process_payload job_id data w = (r, logged entries w)
    ∧ process_payload job_id data w0 = (r, logged entries w0)
    ∧ fetch_outcome r entries
    ∧ (∀ e, r = Raise e → e = AttributeError).
Proof.
  assert (∀ w1, (bind (logger_warning "職缺(ID:{job_id})內容不存在或已關閉" [FStr job_id])
                      (fun _ => ret (JDict ∅))) w1
                = (Ret (JDict ∅),
                   logged [Log WARNING "職缺(ID:{job_id})內容不存在或已關閉" [FStr job_id]] w1))
    as Hwarn by done.
  assert (fetch_outcome (Ret (JDict ∅))
            [Log WARNING "職缺(ID:{job_id})內容不存在或已關閉" [FStr job_id]]) as Habsent.
  { left. split; [done|]. eexists. split; [done|]. by left. }
  unfold process_payload. rewrite !bind_lift.
  destruct (py_get data "data" (JDict ∅)) as [job_data|e] eqn:Hdata.
  - unfold bind at 1 3. rewrite !absent_or_closed_run.
    destruct (truthy job_data).
    + destruct (py_get job_data "custSwitch" (JDict ∅)) as [switch|e] eqn:Hswitch.
      * simpl res_bind. destruct (py_eq_str switch "off").
        -- rewrite !Hwarn. eexists _, _. repeat split; [done|discriminate].
        -- destruct (extracted_info_run job_id job_data w w0)
             as (r & Hw & Hw0 & Hne & Hexc).
           exists r, []. rewrite !logged_nil. repeat split; [done..| |done].
           by right.
      * simpl res_bind. apply py_get_raises in Hswitch as ->.
        exists (Raise AttributeError), []. rewrite !logged_nil.
        repeat split; [by right | by intros ? [= <-]].
    + rewrite !Hwarn. eexists _, _. repeat split; [done|discriminate].
  - apply py_get_raises in Hdata as ->.
    exists (Raise AttributeError), []. rewrite !logged_nil.
    repeat split; [by right | by intros ? [= <-]].
Qed.

(** A run of [fetch_104_data] in two worlds: the same result and the same
    log records in both, the database left alone. *)
Lemma fetch_104_data_run E url w w0 :
  ∃ r entries,
    fetch_104_data E url w = (r, logged entries w)
    ∧ fetch_104_data E url w0 = (r, logged entries w0)
    ∧ fetch_outcome r entries.
Proof.
  destruct (derive_job_id_total url) as [job_id Hid].
  rewrite !(fetch_104_data_with_id _ _ _ _ Hid).
  assert (∀ e, fetch_outcome (Ret (JDict ∅))
                 [Log ERROR "請求 API 時發生錯誤: {err}" [FExc e]]) as Habsent.
  { intros e. left. split; [done|]. eexists. split; [done|]. by right. }
  unfold fetch_with_id, try_except_return, requests_get. rewrite !bind_lift.
  destruct (net E (api_url job_id) headers) as [resp|e].
  - unfold bind, raise_for_status, response_json.
    destruct ((400 <=? status_code resp)%Z && (status_code resp <? 600)%Z).
    { eexists _, _. split; [reflexivity|]. split; [reflexivity|]. apply Habsent. }
    simpl. destruct (body_json resp) as [data|].
    + simpl.
      destruct (process_payload_run job_id data w w0) as (r & entries & Hw & Hw0 & Hout & _).
      by exists r, entries.
    + eexists _, _. split; [reflexivity|]. split; [reflexivity|]. apply Habsent.
  - destruct (catches (Classes [HTTPError; JSONDecodeError]) e).
    + eexists _, _. split; [reflexivity|]. split; [reflexivity|]. apply Habsent.
    + exists (Raise e), []. rewrite !logged_nil. repeat split. by right.
Qed.

Lemma fetch_104_data_frame E url w w0 :
  (fetch_104_data E url w).1 = (fetch_104_data E url w0).1.
Proof.
  destruct (fetch_104_data_run E url w w0) as (r & entries & -> & -> & _). done.
Qed.

(** X2: a call of [fetch_104_data] never touches the database and logs at
    most one record.  It logs exactly one, a warning or an error, when it
    returns the empty dict, and nothing at all when it returns a record or
    lets an exception through. *)
Theorem fetch_absent_iff_diagnostic E url w :
  ∃ r entries,
    fetch_104_data E url w = (r, logged entries w)
    ∧ fetch_outcome r entries.
Proof.
  destruct (fetch_104_data_run E url w w) as (r & entries & Hw & _ & Hout).
  by exists r, entries.
Qed.

(** X1: whatever [fetch_104_data] returns is a dict, and that dict is
    either empty or has exactly the eighteen columns of [jobs_104] as keys,
    with [job_id] the identifier derived from the URL. *)
Theorem fetch_returns_empty_or_complete E url w v :
  (fetch_104_data E url w).1 = Ret v →
  ∃ r, v = JDict r
       ∧ (r = ∅
          ∨ (dom r = list_to_set (column_names jobs_104_table)
             ∧ ∃ job_id, derive_job_id url = Ret job_id
                         ∧ r !! "job_id" = Some (JStr job_id))).
Proof.
  destruct (fetch_104_data E url w) as [r0 w'] eqn:Hrun. simpl. intros ->.
  by eapply fetch_104_data_returns.
Qed.

Lemma fetch_returns_empty_or_complete_witness :
  ∃ r, JDict sample_record = JDict r
       ∧ (r = ∅
          ∨ (dom r = list_to_set (column_names jobs_104_table)
             ∧ ∃ job_id, derive_job_id sample_url = Ret job_id
                         ∧ r !! "job_id" = Some (JStr job_id))).
Proof.
  apply (fetch_returns_empty_or_complete (serving (JDict open_payload)) sample_url fresh_world).
  vm_compute. exact eq_refl.
Defined.

(** X3: a response with a 4xx or 5xx status, whatever its body, and a
    response whose body is not JSON both end in the empty dict and one
    logged error, which names [HTTPError] for the status and
    [JSONDecodeError] otherwise. *)
Theorem transport_errors_become_absent E url w job_id status body :
  derive_job_id url = Ret job_id →
  net E (api_url job_id) headers = Ret (Response status body) →
  ((400 ≤ status < 600)%Z ∨ body = None) →
  fetch_104_data E url w
  = (Ret (JDict ∅),
     logged [Log ERROR "請求 API 時發生錯誤: {err}"
               [FExc (if ((400 <=? status) && (status <? 600))%Z
                      then HTTPError else JSONDecodeError)]] w).
Proof.
  intros Hid Hnet [Hstatus | ->].
  - rewrite (fetch_http_error _ _ _ _ _ _ Hid Hnet Hstatus).
    replace ((400 <=? status)%Z && (status <? 600)%Z) with true; [done|].
    symmetry. apply andb_true_iff. lia.
  - by rewrite (fetch_undecodable_body _ _ _ _ _ Hid Hnet).
Qed.

Lemma transport_errors_become_absent_witness :
  fetch_104_data (answering 503 (Some (JDict open_payload))) sample_url fresh_world
  = (Ret (JDict ∅),
     logged [Log ERROR "請求 API 時發生錯誤: {err}" [FExc HTTPError]] fresh_world).
Proof.
  apply (transport_errors_become_absent
           (answering 503 (Some (JDict open_payload))) sample_url fresh_world
           "8863t" 503 (Some (JDict open_payload))).
  - reflexivity.
  - reflexivity.
  - left. lia.
Defined.

Lemma process_payload_raises job_id data w r w' e :
  process_payload job_id data w = (r, w') → r = Raise e →
  e = AttributeError ∧ w' = w.
Proof.
  destruct (process_payload_run job_id data w w)
    as (r0 & entries & Hw & _ & Hout & Hexc).
  rewrite Hw. intros [= <- <-] ->. split; [by apply Hexc|].
  destruct Hout as [[? _] | [_ ->]]; [done|]. apply logged_nil.
Qed.

(** X4: when the response decodes to something that is not an object, or
    to an object whose [data] entry is truthy but not an object, the [.get]
    of lines 48-49 raises [AttributeError]; the exception leaves
    [fetch_104_data] and nothing is logged. *)
Theorem non_object_payload_faults E url w job_id data :
  derive_job_id url = Ret job_id →
  answers E job_id data →
  (is_object data = false
   ∨ ∃ d job_data, data = JDict d ∧ d !! "data" = Some job_data
                   ∧ truthy job_data = true ∧ is_object job_data = false) →
  fetch_104_data E url w = (Raise AttributeError, w).
Proof.
  intros Hid Hans Hbad.
  rewrite (fetch_104_data_answers _ _ _ _ _ Hid Hans).
  unfold process_payload. rewrite bind_lift.
  destruct Hbad as [Hdata | (d & job_data & -> & Hd & Htruthy & Hobj)].
  - by destruct data.
  - simpl py_get. rewrite Hd. simpl default. cbv beta iota.
    unfold bind at 1. rewrite absent_or_closed_run, Htruthy.
    by destruct job_data.
Qed.

Lemma non_object_payload_faults_witness :
  fetch_104_data (serving (JList [JDict open_payload])) sample_url fresh_world
  = (Raise AttributeError, fresh_world).
Proof.
  apply (non_object_payload_faults _ sample_url fresh_world "8863t" (JList [JDict open_payload])).
  - reflexivity.
  - exists 200%Z. split; [reflexivity | lia].
  - left. reflexivity.
Defined.

(** X5: when one of the six sections of an open posting is present but
    is not an object, [fetch_104_data] raises [AttributeError] and logs
    nothing. *)
Theorem non_object_section_faults E url w job_id d jd section v :
  derive_job_id url = Ret job_id →
  answers E job_id (JDict d) →
  d !! "data" = Some (JDict jd) →
  jd !! "custSwitch" ≠ Some (JStr "off") →
  section ∈ sections →
  jd !! section = Some v →
  is_object v = false →
  fetch_104_data E url w = (Raise AttributeError, w).
Proof.
  intros Hid Hans Hdata Hopen Hsec Hv Hobj.
  assert (jd ≠ ∅) as Hne by (intros ->; by rewrite lookup_empty in Hv).
  rewrite (fetch_104_data_answers _ _ _ _ _ Hid Hans).
  destruct (process_payload job_id (JDict d) w) as [r w'] eqn:Hrun.
  destruct r as [x|e].
  - exfalso.
    destruct (process_payload_returns _ _ _ _ _ Hrun) as (rec & -> & _).
    rewrite (process_payload_open _ _ _ _ Hdata Hne Hopen) in Hrun.
    apply extracted_info_inv in Hrun as (_ & _ & _ & Hfields).
    assert (∀ field key dflt, (field, (section, key, dflt)) ∈ field_sources → False)
      as Hno.
    { intros field key dflt Hin.
      destruct (Hfields _ _ _ _ Hin) as (x & Hx & _).
      simpl in Hx. rewrite Hv in Hx. by destruct v. }
    unfold sections in Hsec.
    repeat (apply elem_of_cons in Hsec as [-> | Hsec];
            [ first [ solve [eapply (Hno "title" "jobName"); repeat constructor]
                    | solve [eapply (Hno "salary" "salary"); repeat constructor]
                    | solve [eapply (Hno "degree" "edu"); repeat constructor]
                    | solve [eapply (Hno "qualification_bonus" "welfare"); repeat constructor]
                    | solve [eapply (Hno "company_address" "address"); repeat constructor]
                    | solve [eapply (Hno "contact_person" "hrName"); repeat constructor] ] |]).
    by apply elem_of_nil in Hsec.
  - destruct (process_payload_raises _ _ _ _ _ e Hrun eq_refl) as [-> ->]. done.
Qed.

Lemma non_object_section_faults_witness :
  fetch_104_data (serving (JDict null_welfare_payload)) sample_url fresh_world
  = (Raise AttributeError, fresh_world).
Proof.
  apply (non_object_section_faults _ sample_url fresh_world "8863t"
           null_welfare_payload null_welfare_data "welfare" JNull).
  - reflexivity.
  - exists 200%Z. split; [reflexivity | lia].
  - reflexivity.
  - vm_compute. discriminate.
  - unfold sections. repeat constructor.
  - reflexivity.
  - reflexivity.
Defined.

(** ** More on the upsert statement *)

Lemma inserted_row_lookup (r : gmap string json) (c : string) :
  inserted_row (update_stmt r) !! c
  = if decide (c ∈ column_names jobs_104_table)
    then Some (default JNull (r !! c)) else None.
Proof.
  unfold inserted_row, update_stmt, on_duplicate_key_update, values, insert.
  cbn [ins_values ins_table].
  destruct (decide (c ∈ column_names jobs_104_table)) as [Hin|Hnot].
  - apply elem_of_list_to_map_1.
    + rewrite <- list_fmap_compose. apply (bool_decide_unpack _). vm_compute. exact I.
    + unfold column_names in Hin.
      apply list_elem_of_fmap in Hin as (col & -> & Hcol).
      apply list_elem_of_fmap. by exists col.
  - apply not_elem_of_list_to_map_1. by rewrite <- list_fmap_compose.
Qed.

(** [exec_upsert] on the statement of lines 128-141, computed: the keyword
    arguments must name columns and [job_id] must hold a string. *)
Lemma exec_upsert_update_stmt (r : gmap string json) rows :
  exec_upsert (update_stmt r) rows
  = if bool_decide (dom r ⊆ list_to_set (column_names jobs_104_table))
    then match r !! "job_id" with
         | Some (JStr id) =>
             Ret (if List.existsb (has_key jobs_104_table [id]) rows
                  then map (fun old => if has_key jobs_104_table [id] old
                                       then on_duplicate (update_stmt r)
                                              (inserted_row (update_stmt r)) old
                                       else old) rows
                  else rows ++ [inserted_row (update_stmt r)])
         | _ => Raise IntegrityError
         end
    else Raise CompileError.
Proof.
  unfold exec_upsert.
  change (ins_table (update_stmt r)) with jobs_104_table.
  change (ins_values (update_stmt r)) with r.
  destruct (bool_decide (dom r ⊆ list_to_set (column_names jobs_104_table))); [|done].
  assert (inserted_row (update_stmt r) !! "job_id" = Some (default JNull (r !! "job_id")))
    as Hkey.
  { rewrite inserted_row_lookup. by rewrite decide_True by (by left). }
  destruct (row_key jobs_104_table (inserted_row (update_stmt r))) as [k|] eqn:Hk.
  - apply row_key_jobs_104 in Hk as (id & -> & Hid).
    rewrite Hkey in Hid. destruct (r !! "job_id") as [v|]; [|discriminate Hid].
    simpl in Hid. injection Hid as ->.
    by destruct (List.existsb (has_key jobs_104_table [id]) rows).
  - destruct (r !! "job_id") as [[| | | | id | |]|] eqn:Hid; try reflexivity.
    exfalso. assert (row_key jobs_104_table (inserted_row (update_stmt r)) = Some [id])
      as Hsome by (apply row_key_jobs_104; exists id; by rewrite Hkey).
    congruence.
Qed.

Lemma exec_upsert_shape (r : gmap string json) rows rows' :
  exec_upsert (update_stmt r) rows = Ret rows' →
  ∃ id, r !! "job_id" = Some (JStr id)
    ∧ bool_decide (dom r ⊆ list_to_set (column_names jobs_104_table)) = true
    ∧ rows' = if List.existsb (has_key jobs_104_table [id]) rows
              then map (fun old => if has_key jobs_104_table [id] old
                                   then on_duplicate (update_stmt r)
                                          (inserted_row (update_stmt r)) old
                                   else old) rows
              else rows ++ [inserted_row (update_stmt r)].
Proof.
  rewrite exec_upsert_update_stmt.
  destruct (bool_decide (dom r ⊆ list_to_set (column_names jobs_104_table)));
    [|discriminate].
  destruct (r !! "job_id") as [[| | | | id | |]|]; try discriminate.
  intros [= <-]. by exists id.
Qed.

Lemma on_duplicate_any_lookup (r new old : gmap string json) (k : string) :
  on_duplicate (update_stmt r) new old !! k
  = if decide (k ∈ field_sources.*1) then Some (default JNull (new !! k)) else old !! k.
Proof.
  unfold on_duplicate, update_stmt, on_duplicate_key_update. cbn [ins_on_duplicate].
  rewrite update_columns_jobs_104. apply foldl_assign_lookup.
Qed.

Lemma has_key_on_duplicate_any k (r new old : gmap string json) :
  has_key jobs_104_table k (on_duplicate (update_stmt r) new old)
  = has_key jobs_104_table k old.
Proof.
  unfold has_key. rewrite (row_key_ext _ old); [done|].
  rewrite on_duplicate_any_lookup. by rewrite decide_False by apply job_id_not_updated.
Qed.

Lemma has_key_inserted_row (r : gmap string json) id :
  r !! "job_id" = Some (JStr id) →
  has_key jobs_104_table [id] (inserted_row (update_stmt r)) = true.
Proof.
  intros Hid. apply has_key_jobs_104. rewrite inserted_row_lookup.
  rewrite decide_True by (unfold column_names; simpl; left). by rewrite Hid.
Qed.

(** Applying the assignments twice is applying them once; the inserted row
    is a fixed point. *)
Lemma on_duplicate_twice (r new old : gmap string json) :
  on_duplicate (update_stmt r) new (on_duplicate (update_stmt r) new old)
  = on_duplicate (update_stmt r) new old.
Proof.
  apply map_eq. intros k. rewrite !on_duplicate_any_lookup.
  by destruct (decide (k ∈ field_sources.*1)).
Qed.

Lemma on_duplicate_inserted_row (r : gmap string json) :
  on_duplicate (update_stmt r) (inserted_row (update_stmt r)) (inserted_row (update_stmt r))
  = inserted_row (update_stmt r).
Proof.
  apply map_eq. intros k. rewrite on_duplicate_any_lookup.
  destruct (decide (k ∈ field_sources.*1)) as [Hin|]; [|done].
  rewrite inserted_row_lookup.
  rewrite decide_True; [done|].
  rewrite column_names_field_sources. by right.
Qed.

Lemma filter_nil_forall {A} (q : A → bool) (l : list A) :
  List.filter q l = [] → Forall (fun x => q x = false) l.
Proof.
  induction l as [|x l IH]; simpl; [by constructor|].
  destruct (q x) eqn:Hx; [discriminate|]. intros Hl. constructor; auto.
Qed.

Lemma map_id_forall {A} (f : A → A) (l : list A) :
  Forall (fun x => f x = x) l → map f l = l.
Proof. induction 1 as [|x l Hx _ IH]; simpl; [done|]. by rewrite Hx, IH. Qed.

(** Executing the same statement again changes nothing. *)
Lemma exec_upsert_idempotent (r : gmap string json) rows rows' :
  exec_upsert (update_stmt r) rows = Ret rows' →
  exec_upsert (update_stmt r) rows' = Ret rows'.
Proof.
  intros Hexec. pose proof Hexec as Hfirst.
  apply exec_upsert_shape in Hfirst as (id & Hid & Hcols & Hrows').
  set (new := inserted_row (update_stmt r)) in *.
  set (f := fun old => if has_key jobs_104_table [id] old
                       then on_duplicate (update_stmt r) new old else old) in *.
  pose proof (has_key_inserted_row r id Hid) as Hnew. fold new in Hnew.
  assert (Forall (fun x => f x = x) rows'
          ∧ List.existsb (has_key jobs_104_table [id]) rows' = true) as [Hfix Hex].
  { destruct (List.existsb (has_key jobs_104_table [id]) rows) eqn:Hex; subst rows'.
    - split.
      + apply Forall_forall. intros x [y [-> _]]%list_elem_of_fmap.
        unfold f at 2. destruct (has_key jobs_104_table [id] y) eqn:Hy.
        * unfold f. rewrite has_key_on_duplicate_any, Hy. apply on_duplicate_twice.
        * unfold f. by rewrite Hy.
      + rewrite List.existsb_exists in Hex. destruct Hex as (y & Hy & Hkey).
        apply List.existsb_exists. exists (f y). split; [by apply List.in_map|].
        unfold f. rewrite Hkey. by rewrite has_key_on_duplicate_any.
    - split.
      + apply Forall_app. split.
        * apply existsb_filter_nil, filter_nil_forall in Hex.
          eapply Forall_impl; [exact Hex|]. intros x Hx. unfold f. by rewrite Hx.
        * constructor; [|constructor]. unfold f.
          rewrite Hnew. apply on_duplicate_inserted_row.
      + rewrite List.existsb_app. cbn [List.existsb].
        rewrite Hnew. by rewrite !orb_true_r. }
  rewrite exec_upsert_update_stmt, Hcols, Hid, Hex.
  fold new. fold f. by rewrite (map_id_forall f rows' Hfix).
Qed.

(** Rows under another key are left as they are, in their order, and the
    table grows by at most one row. *)
Lemma exec_upsert_other_rows (r : gmap string json) rows rows' id :
  r !! "job_id" = Some (JStr id) →
  exec_upsert (update_stmt r) rows = Ret rows' →
  List.filter (fun x => negb (has_key jobs_104_table [id] x)) rows'
  = List.filter (fun x => negb (has_key jobs_104_table [id] x)) rows
  ∧ length rows ≤ length rows' ≤ S (length rows).
Proof.
  intros Hid (id' & Hid' & _ & ->)%exec_upsert_shape.
  assert (id' = id) as -> by congruence.
  destruct (List.existsb (has_key jobs_104_table [id]) rows).
  - split; [|rewrite length_map; lia].
    induction rows as [|x rows IH]; [done|].
    cbn [map List.filter].
    destruct (has_key jobs_104_table [id] x) eqn:Hx; cbn [negb].
    + rewrite has_key_on_duplicate_any, Hx. cbn [negb]. exact IH.
    + rewrite Hx. cbn [negb]. by rewrite IH.
  - split; [|rewrite length_app; cbn [length]; lia].
    rewrite List.filter_app. cbn [List.filter].
    rewrite (has_key_inserted_row r id Hid). cbn [negb]. by rewrite app_nil_r.
Qed.

(** The key constraint survives every statement that executes. *)
Lemma exec_upsert_keeps_pk (r : gmap string json) rows rows' :
  pk_unique jobs_104_table rows →
  exec_upsert (update_stmt r) rows = Ret rows' →
  pk_unique jobs_104_table rows'.
Proof.
  intros Hpk (id & Hid & _ & ->)%exec_upsert_shape.
  destruct (List.existsb (has_key jobs_104_table [id]) rows) eqn:Hex.
  - intros k. rewrite filter_map_preserved.
    + rewrite length_map. apply Hpk.
    + intros x. destruct (has_key jobs_104_table [id] x); [|done].
      apply has_key_on_duplicate_any.
  - apply existsb_filter_nil in Hex.
    pose proof (has_key_inserted_row r id Hid) as Hnew.
    intros k. rewrite List.filter_app, length_app. cbn [List.filter].
    destruct (has_key jobs_104_table k (inserted_row (update_stmt r))) eqn:Hk;
      cbn [length].
    + apply bool_decide_eq_true in Hk. apply bool_decide_eq_true in Hnew.
      rewrite Hnew in Hk. injection Hk as <-. rewrite Hex. cbn [length]. lia.
    + pose proof (Hpk k). lia.
Qed.

(** ** Runs of [write_to_db] *)

Lemma write_to_db_commits E r w rows rows' v :
  db_fault E OpBegin = None →
  db_fault E OpExecute = None →
  db_fault E OpCommit = None →
  w_db w !! "jobs_104" = Some rows →
  exec_upsert (update_stmt r) rows = Ret rows' →
  r !! "job_id" = Some v →
  write_to_db E (JDict r) w
  = (Ret tt,
     {| w_log := w_log w ++ [log_writing; log_written v];
        w_db := <["jobs_104" := rows']> (w_db w) |}).
Proof.
  intros Hbegin Hexecute Hcommit Hrows Hexec Hid.
  unfold write_to_db, try_except, try_except_return.
  unfold bind at 1. unfold logger_info at 1, logger.
  rewrite bind_lift. cbn [kwargs]. cbv beta iota.
  unfold bind at 1. rewrite upsert_block_run, Hbegin, Hexecute, Hcommit.
  change (table_name (ins_table (update_stmt r))) with "jobs_104".
  cbn [w_db]. rewrite Hrows, Hexec.
  rewrite bind_lift. unfold py_getitem. rewrite Hid.
  unfold logger_info, logger, set_db, ret, log_writing, log_written. cbn [w_db w_log].
  by rewrite <- app_assoc.
Qed.

Lemma write_to_db_raises E r w e :
  upsert_raises E r w e →
  write_to_db E (JDict r) w
  = if catches AnyException e
    then (Ret tt, logged [log_writing; log_write_failed e] w)
    else (Raise e, logged [log_writing] w).
Proof.
  intros Hraise.
  unfold write_to_db, try_except, try_except_return.
  unfold bind at 1. unfold logger_info at 1, logger.
  rewrite bind_lift. cbn [kwargs]. cbv beta iota.
  unfold bind at 1.
  rewrite (upsert_raises_frame E r w _ e Hraise) by done.
  destruct (catches AnyException e); [|done].
  unfold logger_error, logger, logged, log_writing, log_write_failed. cbn [w_db w_log].
  by rewrite <- app_assoc.
Qed.

(** A run of [write_to_db] either commits the statement and logs success,
    or the block raised and the database is the one it started with. *)
Lemma write_to_db_cases E r w :
  (∃ rows rows' id,
      w_db w !! "jobs_104" = Some rows
      ∧ exec_upsert (update_stmt r) rows = Ret rows'
      ∧ r !! "job_id" = Some (JStr id)
      ∧ db_fault E OpBegin = None ∧ db_fault E OpExecute = None
      ∧ db_fault E OpCommit = None
      ∧ write_to_db E (JDict r) w
        = (Ret tt,
           {| w_log := w_log w ++ [log_writing; log_written (JStr id)];
              w_db := <["jobs_104" := rows']> (w_db w) |}))
  ∨ (∃ e, upsert_raises E r w e
        ∧ write_to_db E (JDict r) w
          = if catches AnyException e
            then (Ret tt, logged [log_writing; log_write_failed e] w)
            else (Raise e, logged [log_writing] w)).
Proof.
  assert (∀ e, upsert_raises E r w e →
            ∃ e, upsert_raises E r w e
              ∧ write_to_db E (JDict r) w
                = if catches AnyException e
                  then (Ret tt, logged [log_writing; log_write_failed e] w)
                  else (Raise e, logged [log_writing] w)) as Hfail.
  { intros e He. exists e. split; [done|]. by apply write_to_db_raises. }
  pose proof (upsert_block_run E (update_stmt r) w) as Hrun.
  change (table_name (ins_table (update_stmt r))) with "jobs_104" in Hrun.
  destruct (db_fault E OpBegin) as [e|] eqn:Hbegin.
  { right. apply (Hfail e). unfold upsert_raises. by rewrite Hrun. }
  destruct (db_fault E OpExecute) as [e|] eqn:Hexecute.
  { right. apply (Hfail e). unfold upsert_raises. by rewrite Hrun. }
  destruct (w_db w !! "jobs_104") as [rows|] eqn:Hrows.
  2: { right. apply (Hfail ProgrammingError). unfold upsert_raises. by rewrite Hrun. }
  destruct (exec_upsert (update_stmt r) rows) as [rows'|e] eqn:Hexec.
  2: { right. apply (Hfail e). unfold upsert_raises. by rewrite Hrun. }
  destruct (db_fault E OpCommit) as [e|] eqn:Hcommit.
  { right. apply (Hfail e). unfold upsert_raises. by rewrite Hrun. }
  left. destruct (exec_upsert_shape r rows rows' Hexec) as (id & Hid & _).
  exists rows, rows', id. repeat split; try done.
  by apply (write_to_db_commits E r w rows rows').
Qed.

Lemma write_to_db_not_dict E v w :
  is_object v = false →
  write_to_db E v w = (Raise TypeError, logged [log_writing] w).
Proof. by destruct v. Qed.

Lemma upsert_raises_same_db E r w w0 e :
  upsert_raises E r w e → w_db w0 = w_db w → upsert_raises E r w0 e.
Proof.
  intros Hraise Hdb. unfold upsert_raises.
  by rewrite (upsert_raises_frame E r w w0 e Hraise Hdb).
Qed.

Lemma write_to_db_raises_db E r w e :
  upsert_raises E r w e → w_db (write_to_db E (JDict r) w).2 = w_db w.
Proof.
  intros Hraise. rewrite (write_to_db_raises E r w e Hraise).
  by destruct (catches AnyException e).
Qed.

(** X12: [write_to_db] has two outcomes.  Either the statement was
    executed and committed, the function returns normally and its last log
    record reports success; or the database is exactly what it was, success
    is not reported, and the exception is either logged as an error or
    leaves the function. *)
Theorem write_to_db_commits_or_rolls_back E v w :
  (∃ r rows rows' id,
      v = JDict r
      ∧ w_db w !! "jobs_104" = Some rows
      ∧ exec_upsert (update_stmt r) rows = Ret rows'
      ∧ r !! "job_id" = Some (JStr id)
      ∧ write_to_db E v w
        = (Ret tt,
           {| w_log := w_log w ++ [log_writing; log_written (JStr id)];
              w_db := <["jobs_104" := rows']> (w_db w) |}))
  ∨ (w_db (write_to_db E v w).2 = w_db w
     ∧ (∀ id, last (w_log (write_to_db E v w).2) ≠ Some (log_written id))
     ∧ ∃ e, (write_to_db E v w).1 = Raise e
            ∨ last (w_log (write_to_db E v w).2) = Some (log_write_failed e)).
Proof.
  destruct (is_object v) eqn:Hv.
  - destruct v as [| | | | | |r]; try discriminate.
    destruct (write_to_db_cases E r w)
      as [(rows & rows' & id & Hrows & Hexec & Hid & _ & _ & _ & Hrun)
         | (e & Hraise & Hrun)].
    + left. by exists r, rows, rows', id.
    + right. rewrite Hrun. destruct (catches AnyException e); simpl.
      * split; [done|]. rewrite !last_app. simpl. split; [done|].
        exists e. by right.
      * split; [done|]. rewrite !last_app. simpl. split; [done|].
        exists e. by left.
  - right. rewrite (write_to_db_not_dict E v w Hv). simpl.
    split; [done|]. rewrite last_app. simpl. split; [done|].
    exists TypeError. by left.
Qed.

(** X9: writing a record leaves every row under another identifier as it
    was and in its place, never removes a row, adds at most one, and leaves
    every other table alone. *)
Theorem write_to_db_keeps_other_rows E r w rows id :
  w_db w !! "jobs_104" = Some rows →
  r !! "job_id" = Some (JStr id) →
  ∃ rows',
    w_db (write_to_db E (JDict r) w).2 !! "jobs_104" = Some rows'
    ∧ other_rows id rows' = other_rows id rows
    ∧ length rows ≤ length rows' ≤ S (length rows)
    ∧ ∀ name, name ≠ "jobs_104" →
        w_db (write_to_db E (JDict r) w).2 !! name = w_db w !! name.
Proof.
  intros Hrows Hid.
  destruct (write_to_db_cases E r w)
    as [(rows0 & rows' & id' & Hrows0 & Hexec & _ & _ & _ & _ & Hrun)
       | (e & Hraise & _)].
  - rewrite Hrun. cbn [snd w_db].
    assert (rows0 = rows) as -> by congruence.
    destruct (exec_upsert_other_rows r rows rows' id Hid Hexec) as [Hother Hlen].
    exists rows'. rewrite lookup_insert_eq. repeat split; [done|lia|lia|].
    intros name Hname. by rewrite lookup_insert_ne.
  - rewrite (write_to_db_raises_db E r w e Hraise).
    exists rows. repeat split; [done|lia|lia].
Qed.

(** X10: the primary-key constraint of [jobs_104] survives [write_to_db],
    whatever is written and whether or not the database fails. *)
Theorem write_to_db_keeps_primary_key E v w rows :
  w_db w !! "jobs_104" = Some rows →
  pk_unique jobs_104_table rows →
  ∃ rows',
    w_db (write_to_db E v w).2 !! "jobs_104" = Some rows'
    ∧ pk_unique jobs_104_table rows'.
Proof.
  intros Hrows Hpk.
  destruct (is_object v) eqn:Hv.
  - destruct v as [| | | | | |r]; try discriminate.
    destruct (write_to_db_cases E r w)
      as [(rows0 & rows' & id & Hrows0 & Hexec & _ & _ & _ & _ & Hrun)
         | (e & Hraise & _)].
    + rewrite Hrun. cbn [snd w_db]. exists rows'. rewrite lookup_insert_eq.
      split; [done|]. assert (rows0 = rows) as -> by congruence.
      by eapply exec_upsert_keeps_pk.
    + rewrite (write_to_db_raises_db E r w e Hraise). by exists rows.
  - rewrite (write_to_db_not_dict E v w Hv). by exists rows.
Qed.

Lemma write_to_db_twice E v w :
  w_db (write_to_db E v (write_to_db E v w).2).2 = w_db (write_to_db E v w).2.
Proof.
  destruct (is_object v) eqn:Hv.
  - destruct v as [| | | | | |r]; try discriminate.
    destruct (write_to_db_cases E r w)
      as [(rows & rows' & id & Hrows & Hexec & Hid & Hbegin & Hexecute & Hcommit & Hrun)
         | (e & Hraise & Hrun)].
    + rewrite Hrun. cbn [snd].
      erewrite (write_to_db_commits E r _ rows' rows' _ Hbegin Hexecute Hcommit).
      * cbn [snd w_db]. by rewrite insert_insert_eq.
      * cbn [w_db]. by rewrite lookup_insert_eq.
      * by apply exec_upsert_idempotent with rows.
      * exact Hid.
    + apply (write_to_db_raises_db E r _ e).
      apply (upsert_raises_same_db E r w); [done|].
      by apply (write_to_db_raises_db E r w e).
  - rewrite (write_to_db_not_dict E v w Hv). cbn [snd].
    by rewrite (write_to_db_not_dict E v _ Hv).
Qed.

(** X11: writing the same value a second time leaves the database as the
    first write left it. *)
Theorem write_to_db_idempotent E v w :
  w_db (write_to_db E v (write_to_db E v w).2).2 = w_db (write_to_db E v w).2.
Proof. apply write_to_db_twice. Qed.

(** ** Runs of [main] *)

Lemma create_all_run E w :
  create_all E metadata w
  = match db_fault E OpCreateAll with
    | Some e => (Raise e, w)
    | None => (Ret tt, set_db (created (w_db w)) w)
    end.
Proof.
  unfold create_all, db_step, bind, raise, ret, metadata, created.
  destruct (db_fault E OpCreateAll); [done|].
  cbn [foldl]. change (table_name jobs_104_table) with "jobs_104".
  by destruct (w_db w !! "jobs_104").
Qed.

Lemma created_created db : created (created db) = created db.
Proof.
  unfold created. destruct (db !! "jobs_104") eqn:Hdb.
  - by rewrite Hdb.
  - by rewrite lookup_insert_eq.
Qed.

Lemma created_lookup db : ∃ rows, created db !! "jobs_104" = Some rows
                                   ∧ rows = default [] (db !! "jobs_104").
Proof.
  unfold created. destruct (db !! "jobs_104") as [rows|] eqn:Hdb.
  - exists rows. by rewrite Hdb.
  - exists []. by rewrite lookup_insert_eq.
Qed.

(** [main], step by step. *)
Lemma main_run E w :
  main E w
  = match db_fault E OpCreateAll with
    | Some e => (Raise e, logged [Log INFO "檢查並建立資料表 'jobs_104'..." []] w)
    | None =>
        match fetch_104_data E sample_url
                (logged log_startup (set_db (created (w_db w)) w)) with
        | (Ret v, w') =>
            if negb (truthy v) then (Ret tt, logged [log_fetch_failed] w')
            else write_to_db E v w'
        | (Raise e, w') => (Raise e, w')
        end
    end.
Proof.
  unfold main. unfold bind at 1. unfold logger_info at 1, logger at 1.
  unfold bind at 1. rewrite create_all_run.
  destruct (db_fault E OpCreateAll); [done|].
  unfold bind at 1. unfold logger_info at 1, logger at 1.
  unfold bind at 1. unfold logger_info at 1, logger at 1.
  unfold bind at 1.
  replace {| w_log := _; w_db := _ |}
    with (logged log_startup (set_db (created (w_db w)) w)).
  2: { unfold logged, set_db, log_startup. cbn [w_log w_db].
       by rewrite <- !app_assoc. }
  change "https://www.104.com.tw/job/8863t" with sample_url.
  destruct (fetch_104_data E sample_url _) as [[v|e] w']; [|done].
  by destruct (negb (truthy v)).
Qed.

Lemma created_id db rows : db !! "jobs_104" = Some rows → created db = db.
Proof. intros H. unfold created. by rewrite H. Qed.

(** What [write_to_db] does to the database depends on the database only. *)
Lemma write_to_db_same_db E v w w0 :
  w_db w0 = w_db w →
  w_db (write_to_db E v w0).2 = w_db (write_to_db E v w).2.
Proof.
  intros Hdb. destruct (is_object v) eqn:Hv.
  - destruct v as [| | | | | |r]; try discriminate.
    destruct (write_to_db_cases E r w)
      as [(rows & rows' & id & Hrows & Hexec & Hid & Hbegin & Hexecute & Hcommit & Hrun)
         | (e & Hraise & Hrun)].
    + rewrite Hrun.
      erewrite (write_to_db_commits E r w0 rows rows' _ Hbegin Hexecute Hcommit);
        [cbn [snd w_db]; by rewrite Hdb | by rewrite Hdb | done | exact Hid].
    + rewrite (write_to_db_raises_db E r w e Hraise).
      rewrite (write_to_db_raises_db E r w0 e); [done|].
      by apply (upsert_raises_same_db E r w).
  - by rewrite !(write_to_db_not_dict E v _ Hv).
Qed.

Lemma write_to_db_table_stays E v w rows :
  w_db w !! "jobs_104" = Some rows →
  ∃ rows', w_db (write_to_db E v w).2 !! "jobs_104" = Some rows'.
Proof.
  intros Hrows. destruct (is_object v) eqn:Hv.
  - destruct v as [| | | | | |r]; try discriminate.
    destruct (write_to_db_cases E r w)
      as [(rows0 & rows' & id & _ & _ & _ & _ & _ & _ & Hrun) | (e & Hraise & _)].
    + rewrite Hrun. cbn [snd w_db]. exists rows'. by rewrite lookup_insert_eq.
    + rewrite (write_to_db_raises_db E r w e Hraise). by exists rows.
  - rewrite (write_to_db_not_dict E v w Hv). by exists rows.
Qed.

(** X13: [create_all] runs outside every [try]: when it fails, [main] ends
    with that exception after its first log record, before anything is
    fetched. *)
Theorem main_create_all_failure E w e :
  db_fault E OpCreateAll = Some e →
  main E w = (Raise e, logged [Log INFO "檢查並建立資料表 'jobs_104'..." []] w).
Proof. intros Hfault. by rewrite main_run, Hfault. Qed.

(** X14: when the fetch comes back empty, [main] returns normally, logs
    the fetcher's diagnostic and then its own error, and leaves the table
    with the rows it had ([create_all] having created it if needed). *)
Theorem main_absent_writes_nothing E w :
  db_fault E OpCreateAll = None →
  (fetch_104_data E sample_url w).1 = Ret (JDict ∅) →
  ∃ entry,
    is_diagnostic entry
    ∧ main E w
      = (Ret tt,
         {| w_log := w_log w ++ log_startup ++ [entry; log_fetch_failed];
            w_db := created (w_db w) |}).
Proof.
  intros Hfault Habsent. rewrite main_run, Hfault.
  destruct (fetch_104_data_run E sample_url
              (logged log_startup (set_db (created (w_db w)) w)) w)
    as (r & entries & Hw3 & Hw & Hout).
  rewrite Hw in Habsent. cbn [fst] in Habsent. subst r. rewrite Hw3.
  destruct Hout as [(_ & entry & -> & Hentry) | [Hne _]]; [|done].
  exists entry. split; [done|]. cbn [truthy].
  rewrite bool_decide_eq_true_2 by done. cbn [negb].
  unfold logged, set_db. cbn [w_log w_db].
  by rewrite <- !app_assoc.
Qed.

(** X15: when the fetch returns a record and the database does not fail,
    [main] returns normally and reports success; the table then has exactly
    one row under [8863t], equal to the fetched record in every column, and
    the rows of other postings are as they were. *)
Theorem main_stores_fetched_record E w r :
  (∀ op, db_fault E op = None) →
  (fetch_104_data E sample_url w).1 = Ret (JDict r) →
  r ≠ ∅ →
  (∀ rows, w_db w !! "jobs_104" = Some rows → pk_unique jobs_104_table rows) →
  (main E w).1 = Ret tt
  ∧ last (w_log (main E w).2) = Some (log_written (JStr "8863t"))
  ∧ ∃ rows' row,
      w_db (main E w).2 !! "jobs_104" = Some rows'
      ∧ List.filter (has_key jobs_104_table ["8863t"]) rows' = [row]
      ∧ (∀ c, c ∈ column_names jobs_104_table → row !! c = r !! c)
      ∧ other_rows "8863t" rows'
        = other_rows "8863t" (default [] (w_db w !! "jobs_104")).
Proof.
  intros Hfault Hfetch Hrec Hpk. rewrite main_run, Hfault.
  destruct (fetch_104_data_returns E sample_url w (JDict r)
              (fetch_104_data E sample_url w).2) as (r' & [= <-] & Hshape).
  { rewrite <- Hfetch. by destruct (fetch_104_data E sample_url w). }
  destruct Hshape as [->|(Hdom & job_id & Hderive & Hid)]; [done|].
  assert (job_id = "8863t") as -> by (vm_compute in Hderive; congruence).
  destruct (fetch_104_data_run E sample_url
              (logged log_startup (set_db (created (w_db w)) w)) w)
    as (r0 & entries & Hw3 & Hw & Hout).
  rewrite Hw in Hfetch. cbn [fst] in Hfetch. subst r0. rewrite Hw3.
  destruct Hout as [([= Hempty] & _) | [_ ->]]; [done|].
  rewrite logged_nil. cbn [truthy].
  rewrite bool_decide_eq_false_2 by done. cbn [negb].
  destruct (created_lookup (w_db w)) as (rows & Hrows & Hrows_eq).
  assert (pk_unique jobs_104_table rows) as Hpk_rows.
  { subst rows. destruct (w_db w !! "jobs_104") as [rows0|] eqn:Hdb; simpl.
    - by apply Hpk.
    - intros k. simpl. lia. }
  destruct (exec_upsert_overwrites r "8863t" rows Hdom Hid Hpk_rows)
    as (rows' & Hexec & _ & row & Hrow & Hcols).
  rewrite (write_to_db_commits E r
             (logged log_startup (set_db (created (w_db w)) w))
             rows rows' (JStr "8863t")
             (Hfault _) (Hfault _) (Hfault _) Hrows Hexec Hid).
  cbn [fst snd w_log w_db].
  split; [done|]. split.
  { rewrite last_app. by cbn [last]. }
  exists rows', row. rewrite lookup_insert_eq.
  split; [done|]. split; [done|]. split; [done|].
  rewrite <- Hrows_eq.
  by apply (exec_upsert_other_rows r rows rows' "8863t" Hid Hexec).
Qed.

(** X16: running [main] a second time against the same server and the
    same database faults leaves the database as the first run left it. *)
Theorem main_idempotent E w :
  w_db (main E (main E w).2).2 = w_db (main E w).2.
Proof.
  rewrite (main_run E w).
  destruct (db_fault E OpCreateAll) as [e|] eqn:Hfault.
  { cbn [snd]. by rewrite main_run, Hfault. }
  set (w3 := logged log_startup (set_db (created (w_db w)) w)).
  assert (∀ w1 rows1, w_db w1 !! "jobs_104" = Some rows1 →
            ∃ w3', main E w1
                   = match fetch_104_data E sample_url w3' with
                     | (Ret v, w') =>
                         if negb (truthy v) then (Ret tt, logged [log_fetch_failed] w')
                         else write_to_db E v w'
                     | (Raise e, w') => (Raise e, w')
                     end
                   ∧ w_db w3' = w_db w1) as Hagain.
  { intros w1 rows1 Hw1. eexists. rewrite main_run, Hfault. split; [reflexivity|].
    cbn [logged set_db w_db]. by apply created_id with rows1. }
  destruct (created_lookup (w_db w)) as (rows & Hrows & _).
  destruct (fetch_104_data_run E sample_url w3 w3) as (r & entries & Hw3 & _ & _).
  rewrite Hw3. destruct r as [v|e].
  - destruct (negb (truthy v)) eqn:Hv.
    + cbn [snd].
      destruct (Hagain (logged [log_fetch_failed] (logged entries w3)) rows Hrows)
        as (w3' & -> & Hdb).
      destruct (fetch_104_data_run E sample_url w3' w3) as (r' & entries' & -> & Hw3' & _).
      rewrite Hw3 in Hw3'. injection Hw3' as <- _. by rewrite Hv.
    + destruct (write_to_db_table_stays E v (logged entries w3) rows Hrows)
        as [rows' Hrows'].
      destruct (Hagain (write_to_db E v (logged entries w3)).2 rows' Hrows')
        as (w3' & -> & Hdb).
      destruct (fetch_104_data_run E sample_url w3' w3) as (r' & entries' & -> & Hw3' & _).
      rewrite Hw3 in Hw3'. injection Hw3' as <- _. rewrite Hv.
      rewrite (write_to_db_same_db E v (write_to_db E v (logged entries w3)).2
                 (logged entries' w3') Hdb).
      apply write_to_db_twice.
  - cbn [snd]. destruct (Hagain (logged entries w3) rows Hrows) as (w3' & -> & Hdb).
    destruct (fetch_104_data_run E sample_url w3' w3) as (r' & entries' & -> & Hw3' & _).
    rewrite Hw3 in Hw3'. by injection Hw3' as <- _.
Qed.

(** X17: an exception that leaves [fetch_104_data] also leaves [main]:
    the program ends with it after the three start-up log records, with the
    table created and nothing written. *)
Theorem main_fetch_exception_propagates E w e :
  db_fault E OpCreateAll = None →
  (fetch_104_data E sample_url w).1 = Raise e →
  main E w
  = (Raise e, {| w_log := w_log w ++ log_startup; w_db := created (w_db w) |}).
Proof.
  intros Hfault Hraise. rewrite main_run, Hfault.
  destruct (fetch_104_data_run E sample_url
              (logged log_startup (set_db (created (w_db w)) w)) w)
    as (r & entries & Hw3 & Hw & Hout).
  rewrite Hw in Hraise. cbn [fst] in Hraise. subst r. rewrite Hw3.
  destruct Hout as [[? _] | [_ ->]]; [done|].
  by rewrite logged_nil.
Qed.

Lemma stocked_rows_pk_unique : pk_unique jobs_104_table [other_record; sample_record].
Proof.
  intros k. cbn [List.filter].
  destruct (has_key jobs_104_table k other_record) eqn:Hother;
    destruct (has_key jobs_104_table k sample_record) eqn:Hsample;
    cbn [length]; try lia.
  apply bool_decide_eq_true in Hother. apply bool_decide_eq_true in Hsample.
  vm_compute in Hother. vm_compute in Hsample. congruence.
Qed.

Lemma write_to_db_keeps_other_rows_witness :
  ∃ rows',
    w_db (write_to_db (serving (JDict open_payload)) (JDict sample_record_2)
            stocked_world).2 !! "jobs_104" = Some rows'
    ∧ other_rows "8863t" rows' = other_rows "8863t" [other_record; sample_record]
    ∧ length [other_record; sample_record] ≤ length rows'
      ≤ S (length [other_record; sample_record])
    ∧ ∀ name, name ≠ "jobs_104" →
        w_db (write_to_db (serving (JDict open_payload)) (JDict sample_record_2)
                stocked_world).2 !! name = w_db stocked_world !! name.
Proof.
  apply (write_to_db_keeps_other_rows (serving (JDict open_payload)) sample_record_2
           stocked_world [other_record; sample_record] "8863t").
  - reflexivity.
  - vm_compute. exact eq_refl.
Defined.

Lemma write_to_db_keeps_primary_key_witness :
  ∃ rows',
    w_db (write_to_db (serving (JDict open_payload)) (JDict sample_record_2)
            stocked_world).2 !! "jobs_104" = Some rows'
    ∧ pk_unique jobs_104_table rows'.
Proof.
  apply (write_to_db_keeps_primary_key (serving (JDict open_payload))
           (JDict sample_record_2) stocked_world [other_record; sample_record]).
  - reflexivity.
  - exact stocked_rows_pk_unique.
Defined.

Lemma main_create_all_failure_witness :
  main create_all_fails fresh_world
  = (Raise OperationalError,
     logged [Log INFO "檢查並建立資料表 'jobs_104'..." []] fresh_world).
Proof.
  apply (main_create_all_failure create_all_fails fresh_world OperationalError).
  reflexivity.
Defined.

Lemma main_absent_writes_nothing_witness :
  ∃ entry,
    is_diagnostic entry
    ∧ main (serving (JDict closed_payload)) stocked_world
      = (Ret tt,
         {| w_log := w_log stocked_world ++ log_startup ++ [entry; log_fetch_failed];
            w_db := created (w_db stocked_world) |}).
Proof.
  apply (main_absent_writes_nothing (serving (JDict closed_payload)) stocked_world).
  - reflexivity.
  - vm_compute. exact eq_refl.
Defined.

Lemma main_stores_fetched_record_witness :
  (main (serving (JDict open_payload)) stocked_world).1 = Ret tt
  ∧ last (w_log (main (serving (JDict open_payload)) stocked_world).2)
    = Some (log_written (JStr "8863t"))
  ∧ ∃ rows' row,
      w_db (main (serving (JDict open_payload)) stocked_world).2 !! "jobs_104"
        = Some rows'
      ∧ List.filter (has_key jobs_104_table ["8863t"]) rows' = [row]
      ∧ (∀ c, c ∈ column_names jobs_104_table → row !! c = sample_record !! c)
      ∧ other_rows "8863t" rows'
        = other_rows "8863t" (default [] (w_db stocked_world !! "jobs_104")).
Proof.
  apply (main_stores_fetched_record (serving (JDict open_payload)) stocked_world
           sample_record).
  - intros op. reflexivity.
  - vm_compute. exact eq_refl.
  - intros Hempty. apply (f_equal (fun m => m !! "job_id")) in Hempty.
    vm_compute in Hempty. discriminate Hempty.
  - intros rows Hrows. unfold stocked_world in Hrows. cbn [w_db] in Hrows.
    rewrite lookup_singleton_eq in Hrows. injection Hrows as <-.
    exact stocked_rows_pk_unique.
Defined.

Lemma main_fetch_exception_propagates_witness :
  main unreachable stocked_world
  = (Raise ConnectionError,
     {| w_log := w_log stocked_world ++ log_startup;
        w_db := created (w_db stocked_world) |}).
Proof.
  apply (main_fetch_exception_propagates unreachable stocked_world ConnectionError).
  - reflexivity.
  - vm_compute. exact eq_refl.
Defined.

(** ** What the fetcher asks of the world *)

(** X8: the only thing [fetch_104_data] asks of the outside world is one
    GET of [https://www.104.com.tw/job/ajax/content/<job_id>] with the two
    headers of lines 27-30: two worlds that answer this request alike give
    the same result and the same log, whatever else differs. *)
Theorem fetch_depends_on_one_request E E' url w job_id :
  derive_job_id url = Ret job_id →
  net E ("https://www.104.com.tw/job/ajax/content/" +:+ job_id)
        (<["User-Agent" := "Mozilla/5.0 (Windows NT 10.0; Win64; x64) AppleWebKit/537.36 (KHTML, like Gecko) Chrome/125.0.0.0 Safari/537.36"]>
         {[ "referer" := "https://www.104.com.tw/" ]})
  = net E' ("https://www.104.com.tw/job/ajax/content/" +:+ job_id)
        (<["User-Agent" := "Mozilla/5.0 (Windows NT 10.0; Win64; x64) AppleWebKit/537.36 (KHTML, like Gecko) Chrome/125.0.0.0 Safari/537.36"]>
         {[ "referer" := "https://www.104.com.tw/" ]}) →
  fetch_104_data E url w = fetch_104_data E' url w.
Proof.
  intros Hid Hnet. rewrite !(fetch_104_data_with_id _ _ _ _ Hid).
  unfold fetch_with_id, try_except_return, requests_get. rewrite !bind_lift.
  change (net E (api_url job_id) headers) with
    (net E ("https://www.104.com.tw/job/ajax/content/" +:+ job_id)
       (<["User-Agent" := "Mozilla/5.0 (Windows NT 10.0; Win64; x64) AppleWebKit/537.36 (KHTML, like Gecko) Chrome/125.0.0.0 Safari/537.36"]>
        {[ "referer" := "https://www.104.com.tw/" ]})).
  rewrite Hnet. reflexivity.
Qed.

Lemma fetch_depends_on_one_request_witness :
  fetch_104_data (serving (JDict open_payload)) sample_url fresh_world
  = fetch_104_data commit_fails sample_url fresh_world.
Proof.
  apply (fetch_depends_on_one_request (serving (JDict open_payload)) commit_fails
           sample_url fresh_world "8863t"); reflexivity.
Defined.
